(** * txwd_record: the Tencent-sheet canvas-replay parser ([main.py])

    A shallow embedding of [TencentSheetParser] and the proofs of the
    properties its specification states.

    Modelling conventions.
    - Python [str] is [string]; the action log is read over ASCII, so the
      pattern class [\d] is the ten ASCII digits.
    - A Python [float] is a binary64 number, kept by the value it denotes:
      a rational, or an infinity, or the nan.  [float(literal)] is the
      binary64 nearest to the literal and the subtraction of line 168 is
      rounded the same way (ties to even, overflow to an infinity);
      comparisons are exact.
    - [logger] and the file system are a [world] threaded through a small
      state-and-exception monad [Py]; a Python exception that leaves a
      method is the outcome [Raise].
    - [sorted] and [min] compare with [<] only, as CPython does. *)

From Stdlib Require Import List String Ascii Bool Arith NArith ZArith.
From Stdlib Require Import QArith Qabs Lia Lqa Permutation Sorted SpecFloat.
Import ListNotations.

Set Implicit Arguments.

(** ** The effect model *)

Module Py.

Inductive exception : Type :=
| ValueError (msg : string)
| AttributeError (msg : string)
| TypeError (msg : string)
| OSError (msg : string).

Inductive outcome (A : Type) : Type :=
| Return (a : A)
| Raise (e : exception).

Arguments Return {A} a.
Arguments Raise {A} e.

Inductive level : Type := INFO | WARNING | ERROR.

(** One constructor per [logger] call of [main.py] that the embedded
    methods reach. *)
Inductive message : Type :=
| MissingKey                          (* line 87 *)
| TextIndexOutOfRange (index : N)     (* line 110 *)
| NoParsableText                      (* line 114 *)
| NoTableData                         (* line 126 *)
| TopMostElement (text : string)      (* line 148 *)
| StyleExcluded (style : option string) (* line 149 *)
| NothingLeftAfterFilter              (* line 154 *)
| DataFrameEmpty                      (* line 204 *)
| CsvWritten (path : string)          (* line 208 *)
| ExcelWritten (path : string)        (* line 212 *)
| UnsupportedFormat (fmt : string).   (* line 215 *)

Section World.

(** What a written file holds; [world] is generic in it. *)
Variable content : Type.

Record world : Type := mkWorld {
  log : list (level * message);
  files : list (string * content)
}.

Definition M (A : Type) : Type := world -> world * outcome A.

Definition ret {A} (a : A) : M A := fun w => (w, Return a).

Definition raise {A} (e : exception) : M A := fun w => (w, Raise e).

Definition bind {A B} (m : M A) (f : A -> M B) : M B :=
  fun w =>
    match m w with
    | (w', Return a) => f a w'
    | (w', Raise e) => (w', Raise e)
    end.

Definition logger (l : level) (m : message) : M unit :=
  fun w => (mkWorld (log w ++ [(l, m)]) (files w), Return tt).

Definition write_file (path : string) (c : content) : M unit :=
  fun w => (mkWorld (log w) ((path, c) :: files w), Return tt).

End World.

Arguments ret {content A} a.
Arguments raise {content A} e.
Arguments bind {content A B} m f.
Arguments logger {content} l m.
Arguments write_file {content} path c.

End Py.

Import Py.

Notation "x <- m ;; k" := (bind m (fun x => k))
  (at level 61, m at next level, right associativity).
Notation "m ;;; k" := (bind m (fun _ => k))
  (at level 61, right associativity).

(** ** Strings: [split], [startswith], the placement pattern, [int], [float] *)

Open Scope string_scope.
Open Scope list_scope.

(** [s.split(sep)] for a one-character separator: never the empty list. *)
Fixpoint split (sep : ascii) (s : string) : list string :=
  match s with
  | EmptyString => [EmptyString]
  | String c s' =>
      if Ascii.eqb c sep then EmptyString :: split sep s'
      else match split sep s' with
           | h :: t => String c h :: t
           | [] => [String c EmptyString]
           end
  end.

Definition startswith (s p : string) : bool := String.prefix p s.

Definition is_digit (c : ascii) : bool :=
  let n := nat_of_ascii c in (48 <=? n)%nat && (n <=? 57)%nat.

Definition is_digit_or_dot (c : ascii) : bool :=
  is_digit c || Ascii.eqb c ".".

(** The longest prefix of [s] made of characters in the class [p], and
    what follows it: the greedy [p+] once the prefix is not empty. *)
Fixpoint span (p : ascii -> bool) (s : string) : string * string :=
  match s with
  | EmptyString => (EmptyString, EmptyString)
  | String c s' =>
      if p c then let (h, t) := span p s' in (String c h, t)
      else (EmptyString, s)
  end.

Definition expect (c : ascii) (s : string) : option string :=
  match s with
  | String d s' => if Ascii.eqb d c then Some s' else None
  | EmptyString => None
  end.

Definition plus (p : ascii -> bool) (s : string) : option (string * string) :=
  match span p s with
  | (EmptyString, _) => None
  | (g, rest) => Some (g, rest)
  end.

Definition obind {A B} (o : option A) (f : A -> option B) : option B :=
  match o with Some a => f a | None => None end.

(** [_Q_COMMAND_PATTERN.match(cmd)], the pattern being
    [q\[(\d+),([\d.]+),([\d.]+)]]: anchored at the start of [cmd] only.
    No class contains the character that has to follow it, so the greedy
    match never backtracks.  The result is the three groups. *)
Definition _Q_COMMAND_PATTERN_match (cmd : string)
  : option (string * string * string) :=
  obind (expect "q" cmd) (fun s1 =>
  obind (expect "[" s1) (fun s2 =>
  obind (plus is_digit s2) (fun '(g1, s3) =>
  obind (expect "," s3) (fun s4 =>
  obind (plus is_digit_or_dot s4) (fun '(g2, s5) =>
  obind (expect "," s5) (fun s6 =>
  obind (plus is_digit_or_dot s6) (fun '(g3, s7) =>
  obind (expect "]" s7) (fun _ =>
  Some (g1, g2, g3))))))))).

Definition digit_value (c : ascii) : N := N.of_nat (nat_of_ascii c - 48).

Fixpoint digits_value (acc : N) (s : string) : N :=
  match s with
  | EmptyString => acc
  | String c s' => digits_value (10 * acc + digit_value c) s'
  end.

(** [sys.int_info.default_max_str_digits]. *)
Definition max_str_digits : nat := 4300.

(** [int(g)] on a group of [\d+]: the number that the digits denote; a
    group of more than [max_str_digits] digits raises [ValueError], here
    [None] (the leading zeros count). *)
Definition int (g : string) : option N :=
  if (String.length g <=? max_str_digits)%nat then Some (digits_value 0 g)
  else None.

(** ** Floats *)

(** The floats that [float] returns on a group of the pattern, by their
    value: a finite number, or [inf] for a literal beyond the range of
    binary64.  No group gives a nan or a negative infinity. *)
Inductive coordinate : Type :=
| Finite (q : Q)
| Inf.

(** The floats that arithmetic on coordinates returns. *)
Inductive float64 : Type :=
| Number (q : Q)
| PlusInf
| MinusInf
| Nan.

(** The value of the binary64 with mantissa [m] and exponent [e], in
    lowest terms. *)
Definition value (m : positive) (e : Z) : Q :=
  Qred (if (0 <=? e)%Z then (Zpos m * 2 ^ e)%Z # 1
        else Zpos m # Z.to_pos (2 ^ (- e))).

(** The binary64 nearest to [n / d], ties to even.  [SFdiv] is the
    division of the Standard Library's specification of IEEE 754
    arithmetic, here at precision 53 with exponents below 1024; it rounds
    the quotient of two mantissas of any length, and [n] and [d] are given
    to it as mantissas with exponent 0.  A quotient too small for the
    smallest subnormal is zero, one beyond the largest binary64 is
    [inf]. *)
Definition nearest (n : N) (d : positive) : coordinate :=
  match n with
  | N0 => Finite 0
  | Npos p =>
      match SFdiv 53 1024 (S754_finite false p 0) (S754_finite false d 0) with
      | S754_zero _ => Finite 0
      | S754_finite _ m e => Finite (value m e)
      | _ => Inf
      end
  end.

(** The binary64 nearest to a rational of either sign. *)
Definition round64 (q : Q) : float64 :=
  match Qnum q with
  | Z0 => Number 0
  | Zpos n =>
      match nearest (Npos n) (Qden q) with
      | Finite r => Number r
      | Inf => PlusInf
      end
  | Zneg n =>
      match nearest (Npos n) (Qden q) with
      | Finite r => Number (- r)
      | Inf => MinusInf
      end
  end.

(** [a - b] on floats: the exact difference, rounded; [inf - inf] is the
    nan. *)
Definition fsub (a b : coordinate) : float64 :=
  match a, b with
  | Finite p, Finite q => round64 (p - q)
  | Inf, Finite _ => PlusInf
  | Finite _, Inf => MinusInf
  | Inf, Inf => Nan
  end.

(** [abs(d)]. *)
Definition fabs (d : float64) : float64 :=
  match d with
  | Number q => Number (Qabs q)
  | PlusInf | MinusInf => PlusInf
  | Nan => Nan
  end.

(** [float(g)] on a group of [[\d.]+]: a decimal literal has at most one
    dot and at least one digit; anything else raises [ValueError], here
    [None].  The literal [i.f] denotes the digits of [i] and [f] over ten
    to the number of digits of [f]. *)
Definition float (g : string) : option coordinate :=
  match split "." g with
  | [i] =>
      if String.eqb i "" then None else Some (nearest (digits_value 0 i) 1)
  | [i; f] =>
      if String.eqb i "" && String.eqb f "" then None
      else Some (nearest (digits_value 0 (i ++ f))
                         (Z.to_pos (10 ^ Z.of_nat (String.length f))))
  | _ => None
  end.

(** ** The data model *)

(** One entry of [extracted_data]: the dict with keys text, x, y, style;
    [style] is [None] until the first style-group command. *)
Record fragment : Type := mkFragment {
  text : string;
  x : coordinate;
  y : coordinate;
  style : option string
}.

(** A [pd.DataFrame] as far as the parser uses one: the column labels and
    the rows.  [pd.DataFrame()] is [empty_frame]. *)
Record DataFrame : Type := mkDataFrame {
  columns : list string;
  rows : list (list string)
}.

Definition empty_frame : DataFrame := mkDataFrame [] [].

(** [df.empty]: some axis has length zero. *)
Definition empty (d : DataFrame) : bool :=
  match columns d, rows d with
  | [], _ => true
  | _, [] => true
  | _, _ => false
  end.

(** The file that [to_csv] or [to_excel] leaves behind, by the frame it
    was written from. *)
Inductive file : Type :=
| CsvFile (d : DataFrame)
| ExcelFile (d : DataFrame).

Definition Py (A : Type) : Type := M file A.

(** The decoded [record] as [_transform_record_to_dataframe] reads it: a
    missing key is [None]. *)
Record flyweight_json : Type := mkFlyweight {
  texts : option (list string)
}.

Record record_json : Type := mkRecord {
  flyweight : option flyweight_json;
  actions : option string
}.

(** The attributes of a parser object ([session] holds no data that the
    embedded methods read).  [y_tolerance] is an [int] or any other number
    with an exact value. *)
Record TencentSheetParser : Type := mkParser {
  df : option DataFrame;
  url : string;
  y_tolerance : Q
}.

(** ** Comparisons of Python numbers *)

Definition Qltb (a b : Q) : bool := negb (Qle_bool b a).

(** [a < b] and [a == b] on floats that are not nan. *)
Definition Cltb (a b : coordinate) : bool :=
  match a, b with
  | Finite p, Finite q => Qltb p q
  | Finite _, Inf => true
  | Inf, _ => false
  end.

Definition Ceqb (a b : coordinate) : bool :=
  match a, b with
  | Finite p, Finite q => Qeq_bool p q
  | Inf, Inf => true
  | _, _ => false
  end.

(** [d > n] for a float [d] and a number [n]: the comparison is exact, and
    false when [d] is the nan. *)
Definition gt (d : float64) (n : Q) : bool :=
  match d with
  | Number q => Qltb n q
  | PlusInf => true
  | MinusInf | Nan => false
  end.

(** The same comparisons as propositions. *)
Definition Clt (a b : coordinate) : Prop :=
  match a, b with
  | Finite p, Finite q => p < q
  | Finite _, Inf => True
  | Inf, _ => False
  end.

Definition Cle (a b : coordinate) : Prop :=
  match a, b with
  | Finite p, Finite q => p <= q
  | _, Inf => True
  | Inf, Finite _ => False
  end.

Declare Scope coordinate_scope.
Delimit Scope coordinate_scope with C.
Bind Scope coordinate_scope with coordinate.
Notation "a < b" := (Clt a b) : coordinate_scope.
Notation "a <= b" := (Cle a b) : coordinate_scope.

Definition style_eqb (s t : option string) : bool :=
  match s, t with
  | None, None => true
  | Some a, Some b => String.eqb a b
  | _, _ => false
  end.

(** [(y1, x1) < (y2, x2)] on tuples: the first components that differ
    decide. *)
Definition tuple_ltb (a b : coordinate * coordinate) : bool :=
  if Ceqb (fst a) (fst b) then Cltb (snd a) (snd b)
  else Cltb (fst a) (fst b).

(** ** The builtins [min] and [sorted] *)

Section Builtins.

Variables (A K : Type) (key : A -> K) (ltb : K -> K -> bool).

(** [min(first :: rest, key=key)]: the running minimum is replaced only
    by an item whose key is strictly smaller. *)
Definition min_by (first : A) (rest : list A) : A :=
  fold_left (fun best item => if ltb (key item) (key best) then item else best)
            rest first.

(** Where [item] goes in an ordered list: in front of the first element
    that is not strictly below it. *)
Fixpoint insert (item : A) (l : list A) : list A :=
  match l with
  | [] => [item]
  | b :: l' =>
      if ltb (key b) (key item) then b :: insert item l'
      else item :: b :: l'
  end.

(** [sorted(l, key=key)]: the stable order by [key]. *)
Definition sorted (l : list A) : list A := fold_right insert [] l.

(** [a] may stand in front of [b] in a sorted list: [b] is not strictly
    below [a]. *)
Definition not_above (a b : A) : Prop := ltb (key b) (key a) = false.

End Builtins.

(** ** [_filter_out_header_labels] (lines 139-156) *)

Definition top_most_element (first : fragment) (rest : list fragment) : fragment :=
  min_by y Cltb first rest.

Definition _filter_out_header_labels (extracted_data : list fragment)
  : Py (list fragment) :=
  match extracted_data with
  | [] => ret []
  | first :: rest =>
      let top := top_most_element first rest in
      let style_to_exclude := style top in
      logger INFO (TopMostElement (text top)) ;;;
      logger INFO (StyleExcluded style_to_exclude) ;;;
      let main_data :=
        filter (fun item => negb (style_eqb (style item) style_to_exclude))
               extracted_data in
      (match main_data with
       | [] => logger WARNING NothingLeftAfterFilter
       | _ => ret tt
       end) ;;;
      ret main_data
  end.

(** ** [_group_data_into_rows] (lines 158-176) *)

Definition sort_row (row : list fragment) : list fragment :=
  sorted x Cltb row.

(** The body of the [for] loop with its three variables. *)
Fixpoint group_loop (tol : Q) (items : list fragment)
    (table_rows : list (list fragment)) (current_row : list fragment)
    (last_y : coordinate) : list (list fragment) :=
  match items with
  | [] => table_rows ++ [sort_row current_row]
  | item :: items' =>
      if gt (fabs (fsub (y item) last_y)) tol then
        group_loop tol items' (table_rows ++ [sort_row current_row])
                   [item] (y item)
      else
        group_loop tol items' table_rows (current_row ++ [item]) (y item)
  end.

Definition _group_data_into_rows (self : TencentSheetParser)
    (sorted_data : list fragment) : list (list fragment) :=
  match sorted_data with
  | [] => []
  | first :: rest => group_loop (y_tolerance self) rest [] [first] (y first)
  end.

(** ** [_transform_record_to_dataframe] (lines 80-137) *)

(** Lines 93-111: the loop over [commands], with [current_style_group]
    and [extracted_data].  [int] is called in front of the [try]; [float]
    is called on both coordinates before the pool is indexed, and only
    [IndexError] is caught. *)
Fixpoint extract_loop (texts_pool : list string) (commands : list string)
    (current_style_group : option string) (extracted_data : list fragment)
  : Py (list fragment) :=
  match commands with
  | [] => ret extracted_data
  | cmd :: commands' =>
      let current_style_group :=
        if startswith cmd "g" then Some cmd else current_style_group in
      match _Q_COMMAND_PATTERN_match cmd with
      | None =>
          extract_loop texts_pool commands' current_style_group extracted_data
      | Some (g1, g2, g3) =>
          match int g1 with
          | None => raise (ValueError "Exceeds the limit for integer string conversion")
          | Some text_index =>
              match float g2 with
              | None => raise (ValueError "could not convert string to float")
              | Some x_coord =>
                  match float g3 with
                  | None => raise (ValueError "could not convert string to float")
                  | Some y_coord =>
                      match nth_error texts_pool (N.to_nat text_index) with
                      | Some t =>
                          extract_loop texts_pool commands' current_style_group
                            (extracted_data
                               ++ [mkFragment t x_coord y_coord current_style_group])
                      | None =>
                          logger WARNING (TextIndexOutOfRange text_index) ;;;
                          extract_loop texts_pool commands' current_style_group
                            extracted_data
                      end
                  end
              end
          end
      end
  end.

(** Line 135: one row of [padded_data]. *)
Definition pad_row (max_cols : nat) (row : list string) : list string :=
  if (List.length row <? max_cols)%nat
  then row ++ repeat "" (max_cols - List.length row)
  else firstn max_cols row.

(** Lines 125-137: from [text_rows] to the frame. *)
Definition materialize (text_rows : list (list string)) : Py DataFrame :=
  match text_rows with
  | [] => logger WARNING NoTableData ;;; ret empty_frame
  | [] :: _ => logger WARNING NoTableData ;;; ret empty_frame
  | headers :: data =>
      let max_cols := List.length headers in
      let padded_data := map (pad_row max_cols) data in
      ret (mkDataFrame headers padded_data)
  end.

(** Lines 113-137: from [extracted_data] to the frame. *)
Definition reconstruct (self : TencentSheetParser)
    (extracted_data : list fragment) : Py DataFrame :=
  match extracted_data with
  | [] => logger WARNING NoParsableText ;;; ret empty_frame
  | _ =>
      main_data <- _filter_out_header_labels extracted_data ;;
      let sorted_data :=
        sorted (fun item => (y item, x item)) tuple_ltb main_data in
      let table_rows_structured := _group_data_into_rows self sorted_data in
      let text_rows := map (map text) table_rows_structured in
      materialize text_rows
  end.

Definition _transform_record_to_dataframe (self : TencentSheetParser)
    (record : record_json) : Py DataFrame :=
  match obind (flyweight record) texts, actions record with
  | Some texts_pool, Some actions_string =>
      let commands := split ";" actions_string in
      extracted_data <- extract_loop texts_pool commands None [] ;;
      reconstruct self extracted_data
  | _, _ => logger ERROR MissingKey ;;; ret empty_frame
  end.

(** ** [__init__] (lines 29-46) and [output_to] (lines 201-216) *)

Definition sheet_prefix : string := "https://docs.qq.com/sheet/".

Definition __init__ (url : string) (y_tolerance : Q) : Py TencentSheetParser :=
  if negb (startswith url sheet_prefix)
  then raise (ValueError "not a Tencent sheet url")
  else ret (mkParser None url y_tolerance).

Section Exporter.

(** [df.to_csv(path)] and [df.to_excel(path)] belong to pandas and to the
    file system: they write the file, or they raise (no engine for the
    extension of the path, a directory that does not exist, a frame
    beyond the limits of a sheet, ...).  [refused path content] is what
    they raise, [None] when they write. *)
Variable refused : string -> file -> option exception.

Definition to_file (path : string) (content : file) : Py unit :=
  match refused path content with
  | Some e => raise e
  | None => write_file path content
  end.

(** [self.df] is [None] until [get_dataframe] has stored a frame; [None]
    has no attribute [empty].  Nothing in [output_to] catches what the
    writers raise. *)
Definition output_to (self : TencentSheetParser) (file_path : string)
    (output_format : string) : Py bool :=
  match df self with
  | None => raise (AttributeError "NoneType has no attribute empty")
  | Some d =>
      if empty d then
        logger WARNING DataFrameEmpty ;;; ret false
      else if String.eqb output_format "csv" then
        to_file file_path (CsvFile d) ;;;
        logger INFO (CsvWritten file_path) ;;;
        ret true
      else if String.eqb output_format "excel" then
        to_file file_path (ExcelFile d) ;;;
        logger INFO (ExcelWritten file_path) ;;;
        ret true
      else
        logger ERROR (UnsupportedFormat output_format) ;;; ret false
  end.

End Exporter.

(** The world before the parser has run. *)
Definition w0 : world file := mkWorld [] [].

(** ** Vocabulary of the properties *)

(** The world [w] after one more log record. *)
Definition logged (w : world file) (l : level) (m : message) : world file :=
  mkWorld (log w ++ [(l, m)]) (files w).

(** A placement command is one that the pattern matches. *)
Definition placement (cmd : string) : bool :=
  match _Q_COMMAND_PATTERN_match cmd with Some _ => true | None => false end.

(** The first of the items with the least y: the items in front of it are
    strictly above, the items behind it are not below. *)
Definition first_minimum (l : list fragment) (top : fragment) : Prop :=
  exists pre post,
    l = pre ++ top :: post
    /\ Forall (fun f => (y top < y f)%C) pre
    /\ Forall (fun f => (y top <= y f)%C) post.

(** The test of the comprehension on line 151. *)
Definition kept (excluded : option string) (item : fragment) : bool :=
  negb (style_eqb (style item) excluded).

(** The test of line 168 on a fragment [b] that follows [a]:
    [abs(b.y - a.y) > tol], the difference being the rounded one. *)
Definition far (tol : Q) (a b : fragment) : bool :=
  gt (fabs (fsub (y b) (y a))) tol.

(** The rows as the loop of [_group_data_into_rows] closes them, before
    each is sorted by x: [group_loop] without [sort_row]. *)
Fixpoint open_rows (tol : Q) (items : list fragment)
    (current_row : list fragment) (last_y : coordinate)
  : list (list fragment) :=
  match items with
  | [] => [current_row]
  | item :: items' =>
      if gt (fabs (fsub (y item) last_y)) tol then
        current_row :: open_rows tol items' [item] (y item)
      else
        open_rows tol items' (current_row ++ [item]) (y item)
  end.

(** In [rows], read as a division of [pre ++ a :: b :: post] into
    consecutive rows, [b] is the first fragment of a row ... *)
Definition starts_row (rows : list (list fragment)) (pre : list fragment)
    (a b : fragment) : Prop :=
  exists rows1 r rows2,
    rows = rows1 ++ (b :: r) :: rows2 /\ List.concat rows1 = pre ++ [a].

(** ... or [a] and [b] are neighbours in one row. *)
Definition same_row (rows : list (list fragment)) (pre : list fragment)
    (a b : fragment) : Prop :=
  exists rows1 r1 r2 rows2,
    rows = rows1 ++ (r1 ++ a :: b :: r2) :: rows2
    /\ List.concat rows1 ++ r1 = pre.

(** The least y of a row (0 for the empty row, which the loop never
    closes). *)
Definition min_y (row : list fragment) : coordinate :=
  match row with
  | [] => Finite 0
  | f :: fs =>
      fold_left (fun m g => if Cltb (y g) m then y g else m) fs (y f)
  end.

(** ** Inputs of the examples *)

Definition demo_parser : TencentSheetParser :=
  mkParser None "https://docs.qq.com/sheet/abc" 5.

Definition demo_record (texts_pool : list string) (actions_string : string)
  : record_json :=
  mkRecord (Some (mkFlyweight (Some texts_pool))) (Some actions_string).

Definition header_example : list fragment :=
  [ mkFragment "A" (Finite 0) (Finite 0) (Some "g1");
    mkFragment "B" (Finite 0) (Finite 10) (Some "g2");
    mkFragment "C" (Finite 20) (Finite 10) (Some "g2") ].

(** ** Vocabulary of the further properties *)

(** Every character of [s] is in the class [p]. *)
Fixpoint all_in (p : ascii -> bool) (s : string) : bool :=
  match s with
  | EmptyString => true
  | String c s' => p c && all_in p s'
  end.

(** The number of occurrences of [c] in [s]. *)
Fixpoint count_char (c : ascii) (s : string) : nat :=
  match s with
  | EmptyString => 0
  | String d s' => (if Ascii.eqb d c then 1 else 0) + count_char c s'
  end.

Definition dots (s : string) : nat := count_char "." s.

(** Where a greedy class stops: at the end, or in front of a character
    that is not in the class. *)
Definition stops (p : ascii -> bool) (rest : string) : Prop :=
  match rest with
  | EmptyString => True
  | String c _ => p c = false
  end.

(** A placement command with an index that [int] rejects. *)
Definition oversized (cmd : string) : bool :=
  match _Q_COMMAND_PATTERN_match cmd with
  | Some (g1, _, _) => negb (String.length g1 <=? max_str_digits)%nat
  | None => false
  end.

(** A placement command with a coordinate that [float] rejects. *)
Definition fatal (cmd : string) : bool :=
  match _Q_COMMAND_PATTERN_match cmd with
  | Some (_, g2, g3) =>
      match float g2, float g3 with
      | Some _, Some _ => false
      | _, _ => true
      end
  | None => false
  end.

(** A placement command that ends the extraction: [int] or [float]
    raises on one of its groups. *)
Definition aborts (cmd : string) : bool := oversized cmd || fatal cmd.

(** The number of neighbours in [l] that the test of line 168 separates. *)
Fixpoint breaks (tol : Q) (l : list fragment) : nat :=
  match l with
  | a :: (b :: _) as l' => (if far tol a b then 1 else 0) + breaks tol l'
  | _ => 0
  end.

(** ** The methods around the core (lines 48-78, 178-199, 219-230) *)

(** What [session.get(self.url, timeout=10)] comes back with: a response,
    or one of the exceptions of [requests]. *)
Inductive response : Type :=
| Answer (status_code : nat) (text : string)
| RequestException.

(** What [demjson3.decode] returns, as far as [get_dataframe] and
    [_transform_record_to_dataframe] tell values apart:
    - a value that counts as false in a condition (an empty dict, null,
      zero, an empty list, ...);
    - a dict that is not empty and on which the lookups of lines 83-85
      either work or raise [KeyError], read as a [record_json]: a
      'flyweight' that is a dict, a 'texts' that is a list of strings, an
      'actions' that is a string, each when it is there;
    - another value that counts as true: lines 83-85 raise on it, and
      what they raise is not a [KeyError], so that nothing catches it. *)
Inductive shape_error : Type :=
| NotSubscriptable (msg : string)  (* a list, a number, a string, or a dict
                                      with a 'flyweight' that is no dict:
                                      indexing by a key is a TypeError *)
| NoSplit (msg : string).          (* an 'actions' that is no string has no
                                      attribute split *)

Definition shape_exception (k : shape_error) : exception :=
  match k with
  | NotSubscriptable msg => TypeError msg
  | NoSplit msg => AttributeError msg
  end.

Inductive json_value : Type :=
| Falsy
| Object (r : record_json)
| Misshapen (k : shape_error).

(** One constructor per [logger] call of the methods of this part. *)
Inductive note : Type :=
| Processing (url : string)     (* line 181 *)
| Fetched (status_code : nat)   (* line 53 *)
| RequestFailed                 (* line 56 *)
| RecordMatched                 (* line 63 *)
| RecordNotFound                (* line 66 *)
| Decoded                       (* line 74 *)
| DecodeFailed                  (* line 77 *)
| Finished.                     (* line 198, without the elapsed time *)

(** The log of a whole run holds the records of this part and, in their
    place, the records of the methods embedded above. *)
Inductive entry : Type :=
| Note (l : level) (n : note)
| Core (l : level) (m : message).

Record state : Type := mkState {
  trace : list entry;
  disk : list (string * file)
}.

Definition ST (A : Type) : Type := state -> state * outcome A.

Definition sret {A} (a : A) : ST A := fun s => (s, Return a).

Definition sraise {A} (e : exception) : ST A := fun s => (s, Raise e).

Definition sbind {A B} (m : ST A) (f : A -> ST B) : ST B :=
  fun s =>
    match m s with
    | (s', Return a) => f a s'
    | (s', Raise e) => (s', Raise e)
    end.

Definition note_log (l : level) (n : note) : ST unit :=
  fun s => (mkState (trace s ++ [Note l n]) (disk s), Return tt).

(** A method of the core run inside a whole run: its log records are
    added to the trace, its files are the disk. *)
Definition lift {A} (m : Py A) : ST A :=
  fun s =>
    let (w', r) := m (mkWorld [] (disk s)) in
    (mkState (trace s ++ map (fun lm => Core (fst lm) (snd lm)) (log w'))
             (files w'),
     r).

Notation "x <~ m ;; k" := (sbind m (fun x => k))
  (at level 61, m at next level, right associativity).
Notation "m ;;~ k" := (sbind m (fun _ => k))
  (at level 61, right associativity).

(** [s] without the prefix [p], when it starts with it. *)
Fixpoint strip_prefix (p s : string) : option string :=
  match p, s with
  | EmptyString, _ => Some s
  | String c p', String d s' =>
      if Ascii.eqb c d then strip_prefix p' s' else None
  | String _ _, EmptyString => None
  end.

(** The first occurrence of [needle] in [s]: what stands in front of it
    and what follows it. *)
Fixpoint find (needle s : string) : option (string * string) :=
  match strip_prefix needle s with
  | Some rest => Some (EmptyString, rest)
  | None =>
      match s with
      | EmptyString => None
      | String c s' =>
          match find needle s' with
          | Some (before, rest) => Some (String c before, rest)
          | None => None
          end
      end
  end.

(** [_RECORD_REGEX.search(html_content)], the pattern being
    [const record=(.*?),replayRecord] with the flag [re.S]: the match
    starts at the first "const record=" and its lazy group ends at the
    first ",replayRecord" behind it.  When there is none behind the first
    "const record=" there is none behind a later one.  The result is the
    group. *)
Definition _RECORD_REGEX_search (html_content : string) : option string :=
  match find "const record=" html_content with
  | Some (_, rest) =>
      match find ",replayRecord" rest with
      | Some (group1, _) => Some group1
      | None => None
      end
  | None => None
  end.

(** [response.raise_for_status()] raises for the client and server error
    codes. *)
Definition raises_for_status (status_code : nat) : bool :=
  (400 <=? status_code)%nat && (status_code <? 600)%nat.

(** [self.df = d]. *)
Definition set_df (self : TencentSheetParser) (d : DataFrame)
  : TencentSheetParser :=
  mkParser (Some d) (url self) (y_tolerance self).

Section Collaborators.

(** The network, the decoder of [demjson3] ([None] when it raises) and
    the writers of pandas. *)
Variable http_get : string -> response.
Variable decode : string -> option json_value.
Variable refused : string -> file -> option exception.

Definition _fetch_page_content (self : TencentSheetParser)
  : ST (option string) :=
  match http_get (url self) with
  | Answer status_code text =>
      if raises_for_status status_code then
        note_log ERROR RequestFailed ;;~ sret None
      else
        note_log INFO (Fetched status_code) ;;~ sret (Some text)
  | RequestException => note_log ERROR RequestFailed ;;~ sret None
  end.

Definition _extract_record_json_string (html_content : string)
  : ST (option string) :=
  match _RECORD_REGEX_search html_content with
  | Some group1 => note_log INFO RecordMatched ;;~ sret (Some group1)
  | None => note_log WARNING RecordNotFound ;;~ sret None
  end.

Definition _decode_to_dict (json_string : string) : ST (option json_value) :=
  match decode json_string with
  | Some data => note_log INFO Decoded ;;~ sret (Some data)
  | None => note_log ERROR DecodeFailed ;;~ sret None
  end.

(** [get_dataframe] returns the frame; the parser it leaves behind is
    returned with it.  An empty string and a false value stop the run
    like [None] does. *)
Definition get_dataframe (self : TencentSheetParser)
  : ST (TencentSheetParser * DataFrame) :=
  note_log INFO (Processing (url self)) ;;~
  html_content <~ _fetch_page_content self ;;
  match html_content with
  | None => sret (self, empty_frame)
  | Some html =>
      if String.eqb html "" then sret (self, empty_frame) else
      json_string <~ _extract_record_json_string html ;;
      match json_string with
      | None => sret (self, empty_frame)
      | Some js =>
          if String.eqb js "" then sret (self, empty_frame) else
          record_data <~ _decode_to_dict js ;;
          match record_data with
          | None => sret (self, empty_frame)
          | Some Falsy => sret (self, empty_frame)
          | Some (Misshapen k) => sraise (shape_exception k)
          | Some (Object record) =>
              d <~ lift (_transform_record_to_dataframe self record) ;;
              note_log INFO Finished ;;~
              sret (set_df self d, d)
          end
      end
  end.

Definition target_url : string :=
  "https://docs.qq.com/sheet/XXXXXXXXXXXXXXXXXXXXXXX".

(** The script of lines 219-230, without what it prints. *)
Definition main : ST unit :=
  parser <~ lift (__init__ target_url 5) ;;
  result <~ get_dataframe parser ;;
  let parser := fst result in
  lift (output_to refused parser "output.csv" "csv") ;;~
  lift (output_to refused parser "output.xlsx" "excel") ;;~
  sret tt.

End Collaborators.

(** The state before a run. *)
Definition s0 : state := mkState [] [].

(** The warning of line 110 for an index that the pool does not have. *)
Definition out_of_range (texts_pool : list string)
    (r : level * message) : Prop :=
  exists index,
    r = (WARNING, TextIndexOutOfRange index)
    /\ (List.length texts_pool <= N.to_nat index)%nat.

(** A fragment that the loop can have made from [commands]: its text is in
    the pool, its coordinates are not negative, its style is the style
    the loop began with or a command of the log that begins with "g". *)
Definition from_log (texts_pool : list string) (commands : list string)
    (initial_style : option string) (f : fragment) : Prop :=
  In (text f) texts_pool
  /\ (Finite 0 <= x f)%C /\ (Finite 0 <= y f)%C
  /\ (style f = initial_style
      \/ exists cmd, In cmd commands /\ startswith cmd "g" = true
                     /\ style f = Some cmd).

(** The value that [get_dataframe] hands to the core: there is one when
    the page was fetched without an error status, was not empty, held a
    record that is not the empty text, and that text decoded to a value
    that counts as true. *)
Definition located_record (http_get : string -> response)
    (decode : string -> option json_value) (self : TencentSheetParser)
  : option json_value :=
  match http_get (url self) with
  | Answer status_code text =>
      if raises_for_status status_code || String.eqb text "" then None
      else match _RECORD_REGEX_search text with
           | Some group1 =>
               if String.eqb group1 "" then None
               else match decode group1 with
                    | Some (Object record) => Some (Object record)
                    | Some (Misshapen k) => Some (Misshapen k)
                    | _ => None
                    end
           | None => None
           end
  | RequestException => None
  end.

(** * Properties *)

Unset Implicit Arguments.

(** ** The pattern and the number parsers on examples *)

Example pattern_examples :
  _Q_COMMAND_PATTERN_match "q[12,3.5,40]tail" = Some ("12", "3.5", "40")
  /\ _Q_COMMAND_PATTERN_match "q[1,1.2.3,4]" = Some ("1", "1.2.3", "4")
  /\ _Q_COMMAND_PATTERN_match "q[,1,2]" = None
  /\ _Q_COMMAND_PATTERN_match "xq[1,2,3]" = None
  /\ split ";" "g1;;q[0,1,2];" = ["g1"; ""; "q[0,1,2]"; ""].
Proof. repeat split. Qed.

Example float_examples :
  float "3.25" = Some (Finite (13 # 4))
  /\ float "5." = Some (Finite 5)
  /\ float ".5" = Some (Finite (1 # 2))
  /\ float "007" = Some (Finite 7)
  /\ float "0.1" = Some (Finite (3602879701896397 # 36028797018963968))
  /\ float "9007199254740993" = Some (Finite 9007199254740992)
  /\ float "9007199254740995" = Some (Finite 9007199254740996)
  /\ float "3.3" = Some (Finite (3715469692580659 # 1125899906842624))
  /\ float "15.0000000000000001" = Some (Finite 15)
  /\ float (String.concat "" (repeat "9" 400)) = Some Inf
  /\ float ("." ++ String.concat "" (repeat "0" 323) ++ "3")
     = Some (Finite (1 # 2 ^ 1074))
  /\ float ("." ++ String.concat "" (repeat "0" 323) ++ "2")
     = Some (Finite 0)
  /\ float "." = None
  /\ float "1.2.3" = None
  /\ float "1..2" = None.
Proof. vm_compute. repeat split. Qed.

Example int_examples :
  int "007" = Some 7%N
  /\ int (String.concat "" (repeat "0" 4300)) = Some 0%N
  /\ int (String.concat "" (repeat "0" 4301)) = None.
Proof. vm_compute. repeat split. Qed.

(** The subtraction of line 168 is rounded: the binary64 below 1 and 6
    are more than 5 apart, and their difference is the float 5; 10 and
    15.01 stay apart. *)
Example fsub_examples :
  fsub (Finite 6) (Finite ((2 ^ 53 - 1) # 2 ^ 53)) = Number 5
  /\ float "0.99999999999999988897769753748434595763683319091796875"
     = Some (Finite ((2 ^ 53 - 1) # 2 ^ 53))
  /\ fsub (Finite 10) (Finite 5) = Number 5
  /\ fsub (Finite 5) (Finite 10) = Number (- 5)
  /\ fabs (fsub Inf Inf) = Nan
  /\ fabs (fsub (Finite 1) Inf) = PlusInf.
Proof. vm_compute. repeat split. Qed.

(** Line 168 on the floats of two literals, tolerance 5: 3.3 and 8.3 are
    in two rows (the floats are more than 5 apart), 10 and
    15.0000000000000001 in one (the second literal is the float 15), two
    literals beyond the range of binary64 in one (inf - inf is the nan),
    5 and such a literal in two. *)
Example grouping_examples :
  let rows_of g1 g2 :=
    match float g1, float g2 with
    | Some y1, Some y2 =>
        List.length
          (_group_data_into_rows demo_parser
             [mkFragment "a" (Finite 0) y1 None;
              mkFragment "b" (Finite 0) y2 None])
    | _, _ => 0%nat
    end in
  rows_of "3.3" "8.3" = 2%nat
  /\ rows_of "10" "15.0000000000000001" = 1%nat
  /\ rows_of (String.concat "" (repeat "9" 400))
             (String.concat "" (repeat "9" 401)) = 1%nat
  /\ rows_of "5" (String.concat "" (repeat "9" 400)) = 2%nat.
Proof. vm_compute. repeat split. Qed.

(** ** Construction: the url guard and the tolerance *)

Lemma startswith_iff (s p : string) :
  startswith s p = true <-> exists rest, s = (p ++ rest)%string.
Proof.
  unfold startswith. revert s.
  induction p as [|c p IH]; intros s.
  - split; [intros _; exists s; reflexivity | destruct s; reflexivity].
  - destruct s as [|d s]; simpl.
    + split; [discriminate | intros [rest H]; discriminate].
    + destruct (ascii_dec c d) as [->|Hne].
      * rewrite IH. split; intros [rest H]; exists rest.
        -- now rewrite H.
        -- now injection H.
      * split; [discriminate|].
        intros [rest H]. injection H as H1 H2. congruence.
Qed.

Lemma init_with_prefix (rest : string) (tol : Q) (w : world file) :
  __init__ (sheet_prefix ++ rest)%string tol w
  = (w, Return (mkParser None (sheet_prefix ++ rest)%string tol)).
Proof.
  unfold __init__.
  assert (E : startswith (sheet_prefix ++ rest)%string sheet_prefix = true)
    by (apply startswith_iff; exists rest; reflexivity).
  rewrite E. reflexivity.
Qed.

(** C10.  A url that does not start with "https://docs.qq.com/sheet/"
    makes [__init__] raise [ValueError] with the world untouched (nothing
    has been done before the check); a url with that prefix constructs the
    parser, whatever the tolerance, and raises nothing. *)
Theorem init_url_precondition (url : string) (tol : Q) (w : world file) :
  ((forall rest, url <> (sheet_prefix ++ rest)%string) ->
   exists msg, __init__ url tol w = (w, Raise (ValueError msg)))
  /\
  (forall rest,
     __init__ (sheet_prefix ++ rest)%string tol w
     = (w, Return (mkParser None (sheet_prefix ++ rest)%string tol))).
Proof.
  split.
  - intros Hno. unfold __init__.
    destruct (startswith url sheet_prefix) eqn:E.
    + apply startswith_iff in E. destruct E as [rest E].
      exfalso. exact (Hno rest E).
    + simpl. eexists. reflexivity.
  - intros rest. apply init_with_prefix.
Qed.

Lemma init_url_precondition_witness :
  exists msg,
    __init__ "http://docs.qq.com/sheet/abc" 5 w0 = (w0, Raise (ValueError msg)).
Proof.
  apply (proj1 (init_url_precondition "http://docs.qq.com/sheet/abc" 5 w0)).
  intros rest H. vm_compute in H. discriminate H.
Defined.

Lemma Qltb_lt (a b : Q) : Qltb a b = true <-> a < b.
Proof.
  unfold Qltb. rewrite negb_true_iff.
  split; intros H.
  - apply Qnot_le_lt. intros Hle. apply Qle_bool_iff in Hle. congruence.
  - destruct (Qle_bool b a) eqn:E; [|reflexivity].
    apply Qle_bool_iff in E. exfalso. exact (Qlt_not_le _ _ H E).
Qed.

Lemma Qltb_ge (a b : Q) : Qltb a b = false <-> b <= a.
Proof.
  unfold Qltb. rewrite negb_false_iff. apply Qle_bool_iff.
Qed.

Lemma Cltb_lt (a b : coordinate) : Cltb a b = true <-> (a < b)%C.
Proof.
  destruct a as [p|], b as [q|]; cbn; try apply Qltb_lt;
    split; (trivial || discriminate || contradiction).
Qed.

Lemma Cltb_ge (a b : coordinate) : Cltb a b = false <-> (b <= a)%C.
Proof.
  destruct a as [p|], b as [q|]; cbn; try apply Qltb_ge;
    split; (trivial || discriminate || contradiction).
Qed.

Lemma Ceqb_eq (a b : coordinate) :
  Ceqb a b = true <-> (a <= b)%C /\ (b <= a)%C.
Proof.
  destruct a as [p|], b as [q|]; cbn.
  - rewrite Qeq_bool_iff. split; [intros H; rewrite H; split; apply Qle_refl|].
    intros [H1 H2]. now apply Qle_antisym.
  - split; [discriminate|tauto].
  - split; [discriminate|tauto].
  - tauto.
Qed.

Lemma Cle_refl (a : coordinate) : (a <= a)%C.
Proof. destruct a; cbn; [apply Qle_refl|exact I]. Qed.

Lemma Clt_le (a b : coordinate) : (a < b)%C -> (a <= b)%C.
Proof. destruct a, b; cbn; trivial. apply Qlt_le_weak. Qed.

Lemma Cle_trans (a b c : coordinate) : (a <= b)%C -> (b <= c)%C -> (a <= c)%C.
Proof.
  destruct a, b, c; cbn; trivial; try contradiction. apply Qle_trans.
Qed.

Lemma Clt_le_trans (a b c : coordinate) : (a < b)%C -> (b <= c)%C -> (a < c)%C.
Proof.
  destruct a, b, c; cbn; trivial; try contradiction. apply Qlt_le_trans.
Qed.

Lemma Cle_lt_trans (a b c : coordinate) : (a <= b)%C -> (b < c)%C -> (a < c)%C.
Proof.
  destruct a, b, c; cbn; trivial; try contradiction. apply Qle_lt_trans.
Qed.

Lemma Clt_trans (a b c : coordinate) : (a < b)%C -> (b < c)%C -> (a < c)%C.
Proof. intros H1 H2. eapply Clt_le_trans; [exact H1|now apply Clt_le]. Qed.

Lemma Clt_not_le (a b : coordinate) : (a < b)%C -> ~ (b <= a)%C.
Proof.
  destruct a, b; cbn; trivial; try tauto. apply Qlt_not_le.
Qed.

(** C5, the claim as stated fails: a negative tolerance is accepted. *)
Lemma negative_tolerance_accepted :
  (-1 < 0)%Q /\
  __init__ "https://docs.qq.com/sheet/abc" (-1) w0
  = (w0, Return (mkParser None "https://docs.qq.com/sheet/abc" (-1))).
Proof. split; reflexivity. Qed.

(** C5, as the code has it.  [__init__] checks the url and nothing else: a
    negative [y_tolerance] is not rejected; with a sheet url the parser is
    constructed, the tolerance is stored as given, no exception is raised
    and nothing is logged or written. *)
Theorem init_keeps_negative_tolerance (rest : string) (tol : Q) (w : world file) :
  tol < 0 ->
  exists self,
    __init__ (sheet_prefix ++ rest)%string tol w = (w, Return self)
    /\ y_tolerance self = tol
    /\ url self = (sheet_prefix ++ rest)%string
    /\ df self = None.
Proof.
  intros _. exists (mkParser None (sheet_prefix ++ rest)%string tol).
  split; [apply init_with_prefix|].
  repeat split.
Qed.

Lemma init_keeps_negative_tolerance_witness :
  exists self,
    __init__ (sheet_prefix ++ "abc")%string (-1) w0 = (w0, Return self)
    /\ y_tolerance self = (-1)%Q
    /\ url self = (sheet_prefix ++ "abc")%string
    /\ df self = None.
Proof.
  apply (init_keeps_negative_tolerance "abc" (-1) w0). reflexivity.
Defined.

(** ** Export *)

(** C9, the claim as stated fails: with a frame of zero rows and a format
    that is not supported, the export ends on the empty-frame warning and
    the unsupported-format error is never reported (the writers of pandas
    are not reached; here they would accept every file). *)
Lemma empty_frame_hides_unsupported_format :
  output_to (fun _ _ => None)
            (mkParser (Some (mkDataFrame ["B"; "C"] [])) "" 5)
            "out.json" "json" w0
  = (logged w0 WARNING DataFrameEmpty, Return false)
  /\ logged w0 WARNING DataFrameEmpty
     <> logged w0 ERROR (UnsupportedFormat "json").
Proof. split; [reflexivity | discriminate]. Qed.

(** C9, as the code has it.  Exporting a frame with zero rows fails with
    the empty-frame warning whatever the format is; exporting a frame
    that is not empty with a format other than "csv" and "excel" fails
    with the unsupported-format error.  In both cases [False] is
    returned, no exception is raised, and the files are what they were:
    the writers of pandas are not reached.  More generally an export that
    returns [False] has written no file. *)
Theorem output_to_failures (refused : string -> file -> option exception)
    (self : TencentSheetParser) (d : DataFrame)
    (file_path output_format : string) (w : world file) :
  df self = Some d ->
  (rows d = [] ->
   output_to refused self file_path output_format w
   = (logged w WARNING DataFrameEmpty, Return false))
  /\
  (empty d = false -> output_format <> "csv" -> output_format <> "excel" ->
   output_to refused self file_path output_format w
   = (logged w ERROR (UnsupportedFormat output_format), Return false))
  /\
  (forall l m, files (logged w l m) = files w)
  /\
  (forall w', output_to refused self file_path output_format w
              = (w', Return false) ->
              files w' = files w).
Proof.
  intros Hdf. unfold output_to. rewrite Hdf.
  split; [|split; [|split]].
  - intros Hrows. unfold empty. rewrite Hrows.
    destruct (columns d); reflexivity.
  - intros Hne Hcsv Hxls. rewrite Hne.
    apply String.eqb_neq in Hcsv, Hxls. rewrite Hcsv, Hxls. reflexivity.
  - reflexivity.
  - intros w'. destruct (empty d).
    + intros H. injection H as <-. reflexivity.
    + unfold to_file.
      destruct (output_format =? "csv")%string.
      { destruct (refused file_path (CsvFile d)); discriminate. }
      destruct (output_format =? "excel")%string.
      { destruct (refused file_path (ExcelFile d)); discriminate. }
      intros H. injection H as <-. reflexivity.
Qed.

Lemma output_to_failures_witness :
  output_to (fun _ _ => None)
            (mkParser (Some (mkDataFrame ["B"] [["1"]])) "" 5) "out.json" "json" w0
  = (logged w0 ERROR (UnsupportedFormat "json"), Return false)
  /\
  output_to (fun _ _ => None)
            (mkParser (Some (mkDataFrame ["B"] [])) "" 5) "out.csv" "csv" w0
  = (logged w0 WARNING DataFrameEmpty, Return false).
Proof.
  split.
  - apply (proj1 (proj2 (output_to_failures (fun _ _ => None)
                           (mkParser (Some (mkDataFrame ["B"] [["1"]])) "" 5)
                           (mkDataFrame ["B"] [["1"]])
                           "out.json" "json" w0 eq_refl))).
    + reflexivity.
    + discriminate.
    + discriminate.
  - apply (proj1 (output_to_failures (fun _ _ => None)
                    (mkParser (Some (mkDataFrame ["B"] [])) "" 5)
                    (mkDataFrame ["B"] [])
                    "out.csv" "csv" w0 eq_refl)).
    reflexivity.
Defined.

(** ** Materialization *)

Lemma pad_row_length (n : nat) (row : list string) :
  List.length (pad_row n row) = n.
Proof.
  unfold pad_row. destruct (Nat.ltb_spec (List.length row) n).
  - rewrite length_app, repeat_length. lia.
  - apply firstn_length_le. exact H.
Qed.

(** C3.  With a first row that is not empty, the frame takes that row as
    its columns and has one row for each remaining row, each of them of
    exactly [len(headers)] cells: a shorter row followed by empty strings,
    a longer one cut to its first [len(headers)] cells. *)
Theorem materialize_uniform_width (headers : list string)
    (data : list (list string)) (w : world file) :
  headers <> [] ->
  exists padded,
    materialize (headers :: data) w = (w, Return (mkDataFrame headers padded))
    /\ List.length padded = List.length data
    /\ Forall (fun row => List.length row = List.length headers) padded
    /\ forall i row, nth_error data i = Some row ->
         exists out, nth_error padded i = Some out
           /\ ((List.length row <= List.length headers)%nat ->
               out = row ++ repeat "" (List.length headers - List.length row))
           /\ ((List.length headers <= List.length row)%nat ->
               out = firstn (List.length headers) row).
Proof.
  intros Hne. exists (map (pad_row (List.length headers)) data).
  split; [|split; [|split]].
  - destruct headers; [contradiction|reflexivity].
  - apply length_map.
  - apply Forall_map, Forall_forall. intros row _. apply pad_row_length.
  - intros i row Hi. exists (pad_row (List.length headers) row). split.
    + rewrite nth_error_map, Hi. reflexivity.
    + unfold pad_row. split; intros Hlen.
      * destruct (Nat.ltb_spec (List.length row) (List.length headers)).
        -- reflexivity.
        -- replace (List.length headers - List.length row)%nat with 0%nat by lia.
           rewrite firstn_all2 by lia. simpl. now rewrite app_nil_r.
      * destruct (Nat.ltb_spec (List.length row) (List.length headers)).
        -- lia.
        -- reflexivity.
Qed.

Lemma materialize_uniform_width_witness :
  exists padded,
    materialize (["a"; "b"; "c"] :: [["1"; "2"]; ["3"; "4"; "5"; "6"]]) w0
    = (w0, Return (mkDataFrame ["a"; "b"; "c"] padded))
    /\ List.length padded = 2%nat
    /\ Forall (fun row => List.length row = 3%nat) padded.
Proof.
  destruct (materialize_uniform_width ["a"; "b"; "c"]
              [["1"; "2"]; ["3"; "4"; "5"; "6"]] w0) as (padded & H1 & H2 & H3 & _).
  - discriminate.
  - exists padded. split; [exact H1|]. split; [exact H2|exact H3].
Defined.

(** ** Extraction *)

Lemma extract_loop_no_placement (texts_pool : list string)
    (commands : list string) :
  Forall (fun cmd => placement cmd = false) commands ->
  forall current_style_group extracted_data (w : world file),
    extract_loop texts_pool commands current_style_group extracted_data w
    = (w, Return extracted_data).
Proof.
  unfold placement.
  induction 1 as [|cmd commands Hcmd _ IH]; intros; cbn [extract_loop].
  - reflexivity.
  - destruct (_Q_COMMAND_PATTERN_match cmd); [discriminate|]. apply IH.
Qed.

(** C7.  When no command of the action log matches the placement pattern
    (or the log is not there at all), [_transform_record_to_dataframe]
    raises nothing and returns the empty frame, after one log record. *)
Theorem no_placement_gives_empty_frame (self : TencentSheetParser)
    (record : record_json) (w : world file) :
  (forall actions_string, actions record = Some actions_string ->
     Forall (fun cmd => placement cmd = false) (split ";" actions_string)) ->
  exists l m,
    _transform_record_to_dataframe self record w
    = (logged w l m, Return empty_frame).
Proof.
  intros Hno. unfold _transform_record_to_dataframe.
  destruct (obind (flyweight record) texts) as [texts_pool|].
  - destruct (actions record) as [actions_string|].
    + exists WARNING, NoParsableText. unfold bind.
      rewrite extract_loop_no_placement by (apply Hno; reflexivity).
      reflexivity.
    + exists ERROR, MissingKey. reflexivity.
  - exists ERROR, MissingKey. destruct (actions record); reflexivity.
Qed.

Lemma no_placement_gives_empty_frame_witness :
  exists l m,
    _transform_record_to_dataframe
      (mkParser None "https://docs.qq.com/sheet/abc" 5)
      (mkRecord (Some (mkFlyweight (Some ["A"; "B"])))
                (Some "g1;f[0,1,2];xq[0,1,2];q[0,1;q[a,1,2];;q[0,,2]"))
      w0
    = (logged w0 l m, Return empty_frame).
Proof.
  apply (no_placement_gives_empty_frame
           (mkParser None "https://docs.qq.com/sheet/abc" 5)
           (mkRecord (Some (mkFlyweight (Some ["A"; "B"])))
                     (Some "g1;f[0,1,2];xq[0,1,2];q[0,1;q[a,1,2];;q[0,,2]"))
           w0).
  intros actions_string H. injection H as <-.
  vm_compute. repeat constructor.
Defined.

(** A placement command with a coordinate that [float] rejects ends the
    loop with [ValueError]: the [except] clause names [IndexError] only. *)
Lemma extract_loop_float_error (texts_pool : list string) (cmd : string)
    (commands : list string) (g1 g2 g3 : string) :
  _Q_COMMAND_PATTERN_match cmd = Some (g1, g2, g3) ->
  float g2 = None \/ float g3 = None ->
  forall current_style_group extracted_data (w : world file),
  exists msg,
    extract_loop texts_pool (cmd :: commands) current_style_group
                 extracted_data w
    = (w, Raise (ValueError msg)).
Proof.
  intros Hm Hf st data w. cbn [extract_loop]. rewrite Hm.
  destruct (int g1); [|eexists; reflexivity].
  destruct (float g2) as [xq|].
  - destruct Hf as [Hf|Hf]; [discriminate|]. rewrite Hf.
    eexists. reflexivity.
  - eexists. reflexivity.
Qed.

(** C4.  What the code does on a coordinate that does not parse: the
    command "q[0,1.2.3,4]" matches the pattern, [float] rejects "1.2.3",
    and the [ValueError] leaves [_transform_record_to_dataframe]; the
    command after it is never read.  Without that command the same log
    gives a frame. *)
Theorem unparsable_coordinate_raises :
  _transform_record_to_dataframe demo_parser
    (demo_record ["a"; "b"] "g1;q[0,0,0];g2;q[0,1.2.3,4];q[1,1,20]") w0
  = (w0, Raise (ValueError "could not convert string to float"))
  /\
  snd (_transform_record_to_dataframe demo_parser
         (demo_record ["a"; "b"] "g1;q[0,0,0];g2;q[1,1,20]") w0)
  = Return (mkDataFrame ["b"] []).
Proof. split; vm_compute; reflexivity. Qed.

Lemma placement_not_style (cmd : string) :
  placement cmd = true -> startswith cmd "g" = false.
Proof.
  unfold placement, _Q_COMMAND_PATTERN_match, startswith.
  destruct cmd as [|c cmd]; [discriminate|].
  cbn [expect obind]. destruct (Ascii.eqb_spec c "q") as [->|Hne].
  - intros _. reflexivity.
  - discriminate.
Qed.

Lemma extract_loop_outcome (texts_pool : list string) (commands : list string) :
  forall current_style_group extracted_data (w1 w2 : world file),
    snd (extract_loop texts_pool commands current_style_group extracted_data w1)
    = snd (extract_loop texts_pool commands current_style_group extracted_data w2).
Proof.
  induction commands as [|cmd commands IH]; intros; cbn [extract_loop].
  - reflexivity.
  - destruct (_Q_COMMAND_PATTERN_match cmd) as [[[g1 g2] g3]|]; [|apply IH].
    destruct (int g1) as [text_index|]; [|reflexivity].
    destruct (float g2); [|reflexivity].
    destruct (float g3); [|reflexivity].
    destruct (nth_error texts_pool (N.to_nat text_index)); [apply IH|].
    unfold bind, logger. apply IH.
Qed.

(** The recovery that the code does have: a placement command whose
    coordinates parse and whose index is not in the pool adds the warning
    and nothing else; the fragments are those of the log without it. *)
Lemma out_of_range_index_skipped (texts_pool : list string)
    (pre post : list string) (cmd g1 g2 g3 : string) (text_index : N)
    (xq yq : coordinate) :
  _Q_COMMAND_PATTERN_match cmd = Some (g1, g2, g3) ->
  int g1 = Some text_index ->
  float g2 = Some xq -> float g3 = Some yq ->
  (List.length texts_pool <= N.to_nat text_index)%nat ->
  forall current_style_group extracted_data (w : world file),
    extract_loop texts_pool (cmd :: post) current_style_group extracted_data w
    = extract_loop texts_pool post current_style_group extracted_data
        (logged w WARNING (TextIndexOutOfRange text_index))
    /\
    snd (extract_loop texts_pool (pre ++ cmd :: post) current_style_group
           extracted_data w)
    = snd (extract_loop texts_pool (pre ++ post) current_style_group
             extracted_data w).
Proof.
  intros Hm Hi Hx Hy Hidx.
  assert (Hstep : forall st data (w : world file),
             extract_loop texts_pool (cmd :: post) st data w
             = extract_loop texts_pool post st data
                 (logged w WARNING (TextIndexOutOfRange text_index))).
  { intros st data w. cbn [extract_loop].
    rewrite placement_not_style by (unfold placement; now rewrite Hm).
    rewrite Hm, Hi, Hx, Hy.
    apply nth_error_None in Hidx. rewrite Hidx. reflexivity. }
  intros st data w. split; [apply Hstep|].
  revert st data w.
  induction pre as [|c pre IH]; intros st data w.
  - cbn [app]. rewrite Hstep. apply extract_loop_outcome.
  - cbn [app extract_loop].
    destruct (_Q_COMMAND_PATTERN_match c) as [[[h1 h2] h3]|]; [|apply IH].
    destruct (int h1) as [index|]; [|reflexivity].
    destruct (float h2); [|reflexivity].
    destruct (float h3); [|reflexivity].
    destruct (nth_error texts_pool (N.to_nat index)); [apply IH|].
    unfold bind, logger. apply IH.
Qed.

(** C8.  What the code does on an index outside the pool when a
    coordinate of the same command does not parse: "q[5,1.2.3,4]" matches
    the pattern and 5 is not an index of a pool of two, yet [float] is
    called first and its [ValueError] ends the extraction; the valid
    command after it is lost.  The log without the offending command
    gives the fragment of "b". *)
Theorem out_of_range_index_with_bad_coordinate :
  extract_loop ["a"; "b"] (split ";" "q[5,1.2.3,4];q[1,1,20]") None [] w0
  = (w0, Raise (ValueError "could not convert string to float"))
  /\
  extract_loop ["a"; "b"] (split ";" "q[1,1,20]") None [] w0
  = (w0, Return [mkFragment "b" (Finite (1 # 1)) (Finite (20 # 1)) None]).
Proof. split; vm_compute; reflexivity. Qed.

(** ** The header and label filter *)

Lemma style_eqb_eq (s t : option string) : style_eqb s t = true <-> s = t.
Proof.
  destruct s as [a|], t as [b|]; simpl; try (split; congruence).
  rewrite String.eqb_eq. split; congruence.
Qed.

Lemma min_by_first_minimum (rest : list fragment) :
  forall seen best,
    first_minimum seen best ->
    first_minimum (seen ++ rest) (min_by y Cltb best rest).
Proof.
  unfold min_by.
  induction rest as [|item rest IH]; intros seen best Hbest; cbn [fold_left].
  - now rewrite app_nil_r.
  - replace (seen ++ item :: rest) with ((seen ++ [item]) ++ rest)
      by (now rewrite <- app_assoc).
    apply IH. destruct Hbest as (pre & post & -> & Hpre & Hpost).
    destruct (Cltb (y item) (y best)) eqn:E.
    + apply Cltb_lt in E.
      exists (pre ++ best :: post), []. split; [reflexivity|]. split; [|constructor].
      apply Forall_app. split.
      * eapply Forall_impl; [|exact Hpre]. cbn beta. intros f Hf.
        now apply Clt_trans with (y best).
      * constructor; [exact E|].
        eapply Forall_impl; [|exact Hpost]. cbn beta. intros f Hf.
        now apply Clt_le_trans with (y best).
    + apply Cltb_ge in E.
      exists pre, (post ++ [item]). split; [now rewrite <- app_assoc|].
      split; [exact Hpre|]. apply Forall_app. split; [exact Hpost|].
      constructor; [exact E|constructor].
Qed.

Lemma top_most_element_first_minimum (first : fragment) (rest : list fragment) :
  first_minimum (first :: rest) (top_most_element first rest).
Proof.
  apply (min_by_first_minimum rest [first] first).
  exists [], []. split; [reflexivity|]. split; constructor.
Qed.

Lemma filter_out_header_labels_run (first : fragment) (rest : list fragment)
    (w : world file) :
  exists w',
    _filter_out_header_labels (first :: rest) w
    = (w', Return (filter (kept (style (top_most_element first rest)))
                          (first :: rest)))
    /\ files w' = files w.
Proof.
  unfold _filter_out_header_labels.
  fold (kept (style (top_most_element first rest))).
  destruct (filter _ (first :: rest)); eexists; split; reflexivity.
Qed.

(** C1.  On a list of fragments that is not empty the filter returns, in
    their order, exactly the fragments whose style differs from the style
    of the topmost fragment, the first one among those of least y; a
    fragment without style is left out exactly when the topmost fragment
    has none.  On the three fragments A (0,0,g1), B (0,10,g2), C (20,10,g2)
    with tolerance 5 the frame has the columns B, C and no row. *)
Theorem header_label_filter :
  (forall extracted_data (w : world file),
     extracted_data <> [] ->
     exists top main_data w',
       first_minimum extracted_data top
       /\ _filter_out_header_labels extracted_data w = (w', Return main_data)
       /\ main_data = filter (fun f => negb (style_eqb (style f) (style top)))
                             extracted_data
       /\ (forall f, In f main_data
                     <-> In f extracted_data /\ style f <> style top)
       /\ (forall f, In f extracted_data -> style f = None ->
                     (~ In f main_data <-> style top = None)))
  /\
  snd (reconstruct (mkParser None "https://docs.qq.com/sheet/abc" 5)
                   header_example w0)
  = Return (mkDataFrame ["B"; "C"] []).
Proof.
  split; [|vm_compute; reflexivity].
  intros [|first rest] w Hne; [contradiction|].
  destruct (filter_out_header_labels_run first rest w) as (w' & Hrun & _).
  exists (top_most_element first rest),
    (filter (kept (style (top_most_element first rest))) (first :: rest)), w'.
  split; [apply top_most_element_first_minimum|].
  split; [exact Hrun|]. split; [reflexivity|].
  assert (Hin : forall f,
             In f (filter (kept (style (top_most_element first rest)))
                          (first :: rest))
             <-> In f (first :: rest)
                 /\ style f <> style (top_most_element first rest)).
  { intros f. rewrite filter_In. unfold kept. rewrite negb_true_iff.
    rewrite <- style_eqb_eq.
    destruct (style_eqb (style f) (style (top_most_element first rest)));
      intuition congruence. }
  split; [exact Hin|].
  intros f Hf Hnone. rewrite Hin, Hnone. split.
  - intros Hnot. destruct (style (top_most_element first rest)) eqn:E;
      [|reflexivity].
    exfalso. apply Hnot. split; [exact Hf|discriminate].
  - intros -> [_ Habs]. now apply Habs.
Qed.

Lemma header_label_filter_witness :
  exists top main_data w',
    first_minimum header_example top
    /\ _filter_out_header_labels header_example w0 = (w', Return main_data)
    /\ main_data = filter (fun f => negb (style_eqb (style f) (style top)))
                          header_example.
Proof.
  destruct (proj1 header_label_filter header_example w0)
    as (top & main_data & w' & H1 & H2 & H3 & _).
  - discriminate.
  - exists top, main_data, w'. split; [exact H1|]. split; [exact H2|exact H3].
Defined.

(** ** Row reconstruction: the grouping rule *)

Lemma group_loop_open_rows (tol : Q) (items : list fragment) :
  forall table_rows current last_y,
    group_loop tol items table_rows current last_y
    = table_rows ++ map sort_row (open_rows tol items current last_y).
Proof.
  induction items as [|item items IH]; intros; cbn [group_loop open_rows].
  - reflexivity.
  - destruct (gt (fabs (fsub (y item) last_y)) tol); rewrite IH.
    + cbn [map]. rewrite <- app_assoc. reflexivity.
    + reflexivity.
Qed.

Lemma open_rows_concat (tol : Q) (items : list fragment) :
  forall current last_y,
    List.concat (open_rows tol items current last_y) = current ++ items.
Proof.
  induction items as [|item items IH]; intros; cbn [open_rows].
  - cbn. reflexivity.
  - destruct (gt (fabs (fsub (y item) last_y)) tol).
    + cbn [List.concat]. rewrite IH. reflexivity.
    + rewrite IH, <- app_assoc. reflexivity.
Qed.

Lemma open_rows_nonempty (tol : Q) (items : list fragment) :
  forall current last_y,
    current <> [] ->
    Forall (fun r => r <> []) (open_rows tol items current last_y).
Proof.
  induction items as [|item items IH]; intros current last_y Hne;
    cbn [open_rows].
  - constructor; [exact Hne|constructor].
  - destruct (gt (fabs (fsub (y item) last_y)) tol).
    + constructor; [exact Hne|]. apply IH. discriminate.
    + apply IH. intros H. apply app_eq_nil in H. destruct H; discriminate.
Qed.

(** The first row that the loop closes begins with the row that is open. *)
Lemma open_rows_head (tol : Q) (items : list fragment) :
  forall current last_y,
  exists r rows',
    open_rows tol items current last_y = (current ++ r) :: rows'.
Proof.
  induction items as [|item items IH]; intros; cbn [open_rows].
  - exists [], []. now rewrite app_nil_r.
  - destruct (gt (fabs (fsub (y item) last_y)) tol).
    + exists [], (open_rows tol items [item] (y item)). now rewrite app_nil_r.
    + destruct (IH (current ++ [item]) (y item)) as (r & rows' & ->).
      exists (item :: r), rows'. now rewrite <- app_assoc.
Qed.

(** The last fragment is in the last row: the open row is always closed. *)
Lemma open_rows_last (tol : Q) (items : list fragment) :
  forall current last_y init z,
    current ++ items = init ++ [z] ->
    exists rows1 r, open_rows tol items current last_y = rows1 ++ [r ++ [z]].
Proof.
  induction items as [|item items IH]; intros current last_y init z H;
    cbn [open_rows].
  - rewrite app_nil_r in H. exists [], init. now rewrite H.
  - destruct (gt (fabs (fsub (y item) last_y)) tol).
    + destruct (@exists_last _ (item :: items)) as (init' & z' & E);
        [discriminate|].
      assert (z' = z) as ->.
      { rewrite E, app_assoc in H. now apply app_inj_tail in H. }
      destruct (IH [item] (y item) init' z E) as (rows1 & r & ->).
      exists (current :: rows1), r. reflexivity.
    + apply (IH (current ++ [item]) (y item) init z).
      now rewrite <- app_assoc.
Qed.

Section Lists.

Variable A : Type.

Lemma app_eq_app_le (l1 l2 l3 l4 : list A) :
  l1 ++ l2 = l3 ++ l4 ->
  (List.length l1 <= List.length l3)%nat ->
  exists l, l3 = l1 ++ l /\ l2 = l ++ l4.
Proof.
  revert l3. induction l1 as [|a l1 IH]; intros l3 H Hlen.
  - exists l3. split; [reflexivity|exact H].
  - destruct l3 as [|b l3]; [cbn in Hlen; lia|].
    cbn in H. injection H as -> H.
    destruct (IH l3 H) as (l & -> & ->); [cbn in Hlen; lia|].
    exists l. split; reflexivity.
Qed.

Lemma app_eq_length (l1 l2 l3 l4 : list A) :
  l1 ++ l2 = l3 ++ l4 ->
  List.length l1 = List.length l3 ->
  l1 = l3 /\ l2 = l4.
Proof.
  intros H Hlen.
  destruct (app_eq_app_le l1 l2 l3 l4 H) as (l & E & ->); [lia|].
  rewrite E, length_app in Hlen.
  destruct l; [|cbn in Hlen; lia].
  rewrite app_nil_r in E. split; [now rewrite E|reflexivity].
Qed.

End Lists.

Lemma starts_row_cons (c : list fragment) (rows' : list (list fragment))
    (pre : list fragment) (a b : fragment) :
  starts_row (c :: rows') (c ++ pre) a b <-> starts_row rows' pre a b.
Proof.
  unfold starts_row. split.
  - intros (rows1 & r & rows2 & Heq & Hc).
    destruct rows1 as [|c' rows1].
    + cbn in Hc. symmetry in Hc. rewrite <- app_assoc in Hc.
      apply app_eq_nil in Hc. destruct Hc as [_ Hc].
      apply app_eq_nil in Hc. destruct Hc; discriminate.
    + cbn in Heq. injection Heq as <- ->.
      exists rows1, r, rows2. split; [reflexivity|].
      cbn in Hc. rewrite <- app_assoc in Hc. now apply app_inv_head in Hc.
  - intros (rows1 & r & rows2 & -> & Hc).
    exists (c :: rows1), r, rows2. split; [reflexivity|].
    cbn. now rewrite Hc, app_assoc.
Qed.

Lemma same_row_cons (c : list fragment) (rows' : list (list fragment))
    (pre : list fragment) (a b : fragment) :
  same_row rows' pre a b -> same_row (c :: rows') (c ++ pre) a b.
Proof.
  intros (rows1 & r1 & r2 & rows2 & -> & <-).
  exists (c :: rows1), r1, r2, rows2. split; [reflexivity|].
  cbn. now rewrite app_assoc.
Qed.

(** Where the pair [a], [b] stands with respect to the open row
    [cur0 ++ [lastf]]: [b] is the next item, or the pair is further on. *)
Lemma pair_position (cur0 : list fragment) (lastf item : fragment)
    (items pre post : list fragment) (a b : fragment) :
  (cur0 ++ [lastf]) ++ item :: items = pre ++ a :: b :: post ->
  (List.length cur0 <= List.length pre)%nat ->
  (cur0 = pre /\ lastf = a /\ item = b /\ items = post)
  \/ (exists pre', pre = (cur0 ++ [lastf]) ++ pre'
                   /\ item :: items = pre' ++ a :: b :: post).
Proof.
  intros H Hlen.
  destruct (Nat.eq_dec (List.length cur0) (List.length pre)) as [E|E].
  - left.
    replace (pre ++ a :: b :: post) with ((pre ++ [a]) ++ b :: post) in H
      by (now rewrite <- app_assoc).
    apply app_eq_length in H; [|rewrite !length_app; cbn; lia].
    destruct H as [H1 H2]. apply app_inj_tail in H1. destruct H1 as [-> ->].
    injection H2 as -> ->. repeat split.
  - right. apply app_eq_app_le in H; [|rewrite length_app; cbn; lia].
    destruct H as (pre' & -> & ->). exists pre'. split; reflexivity.
Qed.

Lemma open_rows_starts_row (tol : Q) (items : list fragment) :
  forall cur0 lastf pre a b post,
    (cur0 ++ [lastf]) ++ items = pre ++ a :: b :: post ->
    (List.length cur0 <= List.length pre)%nat ->
    (far tol a b = true
     <-> starts_row (open_rows tol items (cur0 ++ [lastf]) (y lastf)) pre a b).
Proof.
  induction items as [|item items IH]; intros cur0 lastf pre a b post H Hlen.
  - exfalso. apply (f_equal (@List.length _)) in H.
    rewrite !length_app in H. cbn in H. lia.
  - cbn [open_rows].
    destruct (pair_position _ _ _ _ _ _ _ _ H Hlen)
      as [(-> & -> & -> & ->)|(pre' & -> & Hrest)].
    + unfold far.
      destruct (gt (fabs (fsub (y b) (y a))) tol) eqn:E.
      * split; [intros _|reflexivity].
        destruct (open_rows_head tol post [b] (y b)) as (r & rows' & ->).
        exists [pre ++ [a]], r, rows'. split; [reflexivity|].
        cbn. now rewrite app_nil_r.
      * split; [discriminate|]. intros (rows1 & r & rows2 & Heq & Hc).
        destruct (open_rows_head tol post ((pre ++ [a]) ++ [b]) (y b))
          as (r' & rows' & Hhead).
        rewrite Hhead in Heq. destruct rows1 as [|c rows1].
        -- cbn in Hc. symmetry in Hc. apply app_eq_nil in Hc.
           destruct Hc; discriminate.
        -- cbn in Heq. injection Heq as <- _.
           apply (f_equal (@List.length _)) in Hc. cbn in Hc.
           rewrite !length_app in Hc. cbn in Hc. lia.
    + destruct (gt (fabs (fsub (y item) (y lastf))) tol).
      * rewrite starts_row_cons.
        apply (IH [] item pre' a b post); [exact Hrest|cbn; lia].
      * apply (IH (cur0 ++ [lastf]) item _ a b post).
        -- rewrite <- !app_assoc. cbn. now rewrite Hrest.
        -- rewrite !length_app. cbn. lia.
Qed.

Lemma open_rows_same_row (tol : Q) (items : list fragment) :
  forall cur0 lastf pre a b post,
    (cur0 ++ [lastf]) ++ items = pre ++ a :: b :: post ->
    (List.length cur0 <= List.length pre)%nat ->
    far tol a b = false ->
    same_row (open_rows tol items (cur0 ++ [lastf]) (y lastf)) pre a b.
Proof.
  induction items as [|item items IH];
    intros cur0 lastf pre a b post H Hlen Hnear.
  - exfalso. apply (f_equal (@List.length _)) in H.
    rewrite !length_app in H. cbn in H. lia.
  - cbn [open_rows].
    destruct (pair_position _ _ _ _ _ _ _ _ H Hlen)
      as [(-> & -> & -> & ->)|(pre' & -> & Hrest)].
    + unfold far in Hnear. rewrite Hnear.
      destruct (open_rows_head tol post ((pre ++ [a]) ++ [b]) (y b))
        as (r' & rows' & ->).
      exists [], pre, r', rows'. split; [|reflexivity].
      cbn. now rewrite <- !app_assoc.
    + destruct (gt (fabs (fsub (y item) (y lastf))) tol).
      * apply same_row_cons.
        apply (IH [] item pre' a b post); [exact Hrest|cbn; lia|exact Hnear].
      * apply (IH (cur0 ++ [lastf]) item _ a b post).
        -- rewrite <- !app_assoc. cbn. now rewrite Hrest.
        -- rewrite !length_app. cbn. lia.
        -- exact Hnear.
Qed.

(** ** Row reconstruction: the order of the result *)

Section Sorting.

Variables (A K : Type) (key : A -> K) (ltb : K -> K -> bool).

Hypothesis ltb_asym : forall j k, ltb j k = true -> ltb k j = false.
Hypothesis not_above_trans :
  forall i j k, ltb j i = false -> ltb k j = false -> ltb k i = false.

Lemma insert_perm (item : A) (l : list A) :
  Permutation (insert key ltb item l) (item :: l).
Proof.
  induction l as [|b l IH]; cbn [insert].
  - apply Permutation_refl.
  - destruct (ltb (key b) (key item)).
    + apply perm_trans with (b :: item :: l).
      * apply perm_skip. exact IH.
      * apply perm_swap.
    + apply Permutation_refl.
Qed.

Lemma sorted_perm (l : list A) : Permutation (sorted key ltb l) l.
Proof.
  unfold sorted. induction l as [|a l IH]; cbn [fold_right].
  - apply perm_nil.
  - apply perm_trans with (a :: fold_right (insert key ltb) [] l).
    + apply insert_perm.
    + apply perm_skip. exact IH.
Qed.

Lemma insert_sorted (item : A) (l : list A) :
  StronglySorted (not_above key ltb) l ->
  StronglySorted (not_above key ltb) (insert key ltb item l).
Proof.
  induction 1 as [|b l Hs IH Hb]; cbn [insert].
  - constructor; constructor.
  - destruct (ltb (key b) (key item)) eqn:E.
    + constructor; [exact IH|].
      apply (Permutation_Forall (Permutation_sym (insert_perm item l))).
      constructor; [|exact Hb].
      unfold not_above. apply ltb_asym. exact E.
    + constructor; [constructor; assumption|].
      constructor; [exact E|].
      eapply Forall_impl; [|exact Hb]. cbn beta. intros c Hc.
      unfold not_above in *. eapply not_above_trans; eassumption.
Qed.

Lemma sorted_sorted (l : list A) :
  StronglySorted (not_above key ltb) (sorted key ltb l).
Proof.
  unfold sorted. induction l as [|a l IH]; cbn [fold_right].
  - constructor.
  - apply insert_sorted. exact IH.
Qed.

End Sorting.

Section SortedLists.

Variables (A B : Type).

Lemma StronglySorted_impl (R S : A -> A -> Prop) (l : list A) :
  (forall a b, R a b -> S a b) ->
  StronglySorted R l -> StronglySorted S l.
Proof.
  intros HRS. induction 1 as [|a l Hs IH Ha]; constructor.
  - exact IH.
  - eapply Forall_impl; [|exact Ha]. intros b. apply HRS.
Qed.

Lemma StronglySorted_map (R : A -> A -> Prop) (S : B -> B -> Prop)
    (f : A -> B) (l : list A) :
  (forall a b, R a b -> S (f a) (f b)) ->
  StronglySorted R l -> StronglySorted S (map f l).
Proof.
  intros HRS. induction 1 as [|a l Hs IH Ha]; cbn [map]; constructor.
  - exact IH.
  - apply Forall_map. eapply Forall_impl; [|exact Ha].
    intros b. apply HRS.
Qed.

(** The pieces of an ordered list are ordered among themselves. *)
Lemma StronglySorted_concat (R : A -> A -> Prop) (pieces : list (list A)) :
  StronglySorted R (List.concat pieces) ->
  StronglySorted (fun p q => forall a b, In a p -> In b q -> R a b) pieces.
Proof.
  induction pieces as [|p pieces IH]; cbn [List.concat]; intros Hs.
  - constructor.
  - assert (Hsplit : StronglySorted R (List.concat pieces)
                     /\ forall a b, In a p -> In b (List.concat pieces) -> R a b).
    { clear IH. induction p as [|c p IHp]; cbn [app] in Hs.
      - split; [exact Hs|]. intros a b [].
      - apply StronglySorted_inv in Hs. destruct Hs as [Hs Hc].
        destruct (IHp Hs) as [H1 H2]. split; [exact H1|].
        intros a b [<-|Ha] Hb.
        + rewrite Forall_forall in Hc. apply Hc.
          apply in_or_app. right. exact Hb.
        + apply H2; assumption. }
    destruct Hsplit as [H1 H2]. constructor; [apply IH; exact H1|].
    apply Forall_forall. intros q Hq a b Ha Hb.
    apply H2; [exact Ha|]. apply in_concat. exists q. split; assumption.
Qed.

End SortedLists.

Lemma Cltb_asym (j k : coordinate) : Cltb j k = true -> Cltb k j = false.
Proof. rewrite Cltb_lt, Cltb_ge. apply Clt_le. Qed.

Lemma Cltb_not_above_trans (i j k : coordinate) :
  Cltb j i = false -> Cltb k j = false -> Cltb k i = false.
Proof. rewrite !Cltb_ge. apply Cle_trans. Qed.

Lemma Ceqb_false (a b : coordinate) :
  Ceqb a b = false -> (a <= b)%C -> (a < b)%C.
Proof.
  destruct a as [p|], b as [q|]; cbn; trivial; try discriminate.
  intros E H. apply Qeq_bool_neq in E. apply Qle_lt_or_eq in H.
  destruct H as [H|H]; [exact H|contradiction].
Qed.

Lemma Ceqb_sym (a b : coordinate) : Ceqb a b = Ceqb b a.
Proof.
  destruct (Ceqb a b) eqn:E1, (Ceqb b a) eqn:E2; try reflexivity.
  - apply Ceqb_eq in E1. destruct E1 as [H1 H2].
    assert (E : Ceqb b a = true) by (apply Ceqb_eq; split; assumption).
    congruence.
  - apply Ceqb_eq in E2. destruct E2 as [H1 H2].
    assert (E : Ceqb a b = true) by (apply Ceqb_eq; split; assumption).
    congruence.
Qed.

Lemma tuple_ltb_false (a b : coordinate * coordinate) :
  tuple_ltb b a = false
  <-> (((fst a <= fst b)%C /\ (fst b <= fst a)%C) /\ (snd a <= snd b)%C)
      \/ (fst a < fst b)%C.
Proof.
  unfold tuple_ltb. destruct (Ceqb (fst b) (fst a)) eqn:E.
  - apply Ceqb_eq in E. destruct E as [E1 E2]. rewrite Cltb_ge. split.
    + intros H. left. repeat split; assumption.
    + intros [[_ H]|H]; [exact H|].
      exfalso. exact (Clt_not_le _ _ H E1).
  - rewrite Cltb_ge. split.
    + intros H. right. apply Ceqb_false; [|exact H].
      rewrite Ceqb_sym. exact E.
    + intros [[[H1 H2] _]|H].
      * assert (E' : Ceqb (fst b) (fst a) = true)
          by (apply Ceqb_eq; split; assumption).
        congruence.
      * apply Clt_le. exact H.
Qed.

Lemma tuple_ltb_true (a b : coordinate * coordinate) :
  tuple_ltb a b = true
  <-> (((fst a <= fst b)%C /\ (fst b <= fst a)%C) /\ (snd a < snd b)%C)
      \/ (fst a < fst b)%C.
Proof.
  unfold tuple_ltb. destruct (Ceqb (fst a) (fst b)) eqn:E.
  - apply Ceqb_eq in E. destruct E as [E1 E2]. rewrite Cltb_lt. split.
    + intros H. left. repeat split; assumption.
    + intros [[_ H]|H]; [exact H|].
      exfalso. exact (Clt_not_le _ _ H E2).
  - rewrite Cltb_lt. split.
    + intros H. right. exact H.
    + intros [[[H1 H2] _]|H]; [|exact H].
      assert (E' : Ceqb (fst a) (fst b) = true)
        by (apply Ceqb_eq; split; assumption).
      congruence.
Qed.

Lemma tuple_ltb_asym (j k : coordinate * coordinate) :
  tuple_ltb j k = true -> tuple_ltb k j = false.
Proof.
  rewrite tuple_ltb_true, tuple_ltb_false.
  intros [[H1 H2]|H]; [left|right].
  - split; [exact H1|apply Clt_le; exact H2].
  - exact H.
Qed.

Lemma tuple_ltb_not_above_trans (i j k : coordinate * coordinate) :
  tuple_ltb j i = false -> tuple_ltb k j = false -> tuple_ltb k i = false.
Proof.
  rewrite !tuple_ltb_false.
  intros [[[H1 H1'] H2]|H1] [[[H3 H3'] H4]|H3].
  - left. repeat split; eapply Cle_trans; eassumption.
  - right. eapply Cle_lt_trans; eassumption.
  - right. eapply Clt_le_trans; eassumption.
  - right. eapply Clt_trans; eassumption.
Qed.

Lemma min_y_fold (fs : list fragment) :
  forall m0,
    let m := fold_left (fun m g => if Cltb (y g) m then y g else m) fs m0 in
    (m = m0 \/ exists g, In g fs /\ m = y g)
    /\ (m <= m0)%C
    /\ forall g, In g fs -> (m <= y g)%C.
Proof.
  induction fs as [|f fs IH]; intros m0; cbn [fold_left].
  - split; [left; reflexivity|]. split; [apply Cle_refl|]. intros g [].
  - cbn zeta.
    destruct (IH (if Cltb (y f) m0 then y f else m0)) as (Hin & Hle & Hall).
    cbn zeta in Hin, Hle, Hall.
    destruct (Cltb (y f) m0) eqn:E.
    + apply Cltb_lt in E. split; [|split].
      * right. destruct Hin as [->|(g & Hg & ->)].
        -- exists f. split; [left; reflexivity|reflexivity].
        -- exists g. split; [right; exact Hg|reflexivity].
      * apply Clt_le in E. eapply Cle_trans; eassumption.
      * intros g [<-|Hg]; [exact Hle|apply Hall; exact Hg].
    + apply Cltb_ge in E. split; [|split].
      * destruct Hin as [->|(g & Hg & ->)].
        -- left. reflexivity.
        -- right. exists g. split; [right; exact Hg|reflexivity].
      * exact Hle.
      * intros g [<-|Hg].
        -- eapply Cle_trans; eassumption.
        -- apply Hall. exact Hg.
Qed.

(** [min_y] is the least y of a row that is not empty. *)
Lemma min_y_least (row : list fragment) :
  row <> [] ->
  (exists f, In f row /\ min_y row = y f)
  /\ forall g, In g row -> (min_y row <= y g)%C.
Proof.
  destruct row as [|f fs]; [contradiction|]. intros _. unfold min_y.
  destruct (min_y_fold fs (y f)) as (Hin & Hle & Hall).
  cbn zeta in Hin, Hle, Hall. split.
  - destruct Hin as [->|(g & Hg & ->)].
    + exists f. split; [left; reflexivity|reflexivity].
    + exists g. split; [right; exact Hg|reflexivity].
  - intros g [<-|Hg]; [exact Hle|apply Hall; exact Hg].
Qed.

Lemma sort_row_perm (row : list fragment) : Permutation (sort_row row) row.
Proof. apply sorted_perm. Qed.

Lemma sort_row_sorted (row : list fragment) :
  StronglySorted (fun f g => (x f <= x g)%C) (sort_row row).
Proof.
  apply StronglySorted_impl with (R := not_above x Cltb).
  - intros f g. unfold not_above. apply Cltb_ge.
  - apply sorted_sorted; [exact Cltb_asym|exact Cltb_not_above_trans].
Qed.

Lemma sort_row_nonempty (row : list fragment) :
  row <> [] -> sort_row row <> [].
Proof.
  intros Hne H. apply Hne.
  apply Permutation_nil. rewrite <- H. apply sort_row_perm.
Qed.

Lemma concat_sort_row_perm (pieces : list (list fragment)) :
  Permutation (List.concat (map sort_row pieces)) (List.concat pieces).
Proof.
  induction pieces as [|p pieces IH]; cbn [map List.concat].
  - apply perm_nil.
  - apply Permutation_app; [apply sort_row_perm|exact IH].
Qed.

Lemma sorted_by_y_then_x (main_data : list fragment) :
  StronglySorted (fun f g => (y f <= y g)%C)
    (sorted (fun item => (y item, x item)) tuple_ltb main_data).
Proof.
  apply StronglySorted_impl
    with (R := not_above (fun item => (y item, x item)) tuple_ltb).
  - intros f g. unfold not_above. rewrite tuple_ltb_false. cbn [fst snd].
    intros [[[H _] _]|H].
    + exact H.
    + apply Clt_le. exact H.
  - apply sorted_sorted;
      [exact tuple_ltb_asym|exact tuple_ltb_not_above_trans].
Qed.

(** The rows returned are the pieces, each in another order. *)
Lemma sort_rows_perm (pieces : list (list fragment)) :
  Forall2 (fun row piece => Permutation row piece) (map sort_row pieces) pieces.
Proof.
  induction pieces as [|p pieces IH]; cbn [map]; constructor.
  - apply sort_row_perm.
  - exact IH.
Qed.

(** C2, the claim as stated fails.  The binary64 just below 1 and 6 are
    the floats of two literals; they are 5 + 2^-53 apart, more than the
    tolerance 5, and still share a row: the subtraction of line 168 gives
    the float 5. *)
Lemma rounded_distance_keeps_row :
  let a := mkFragment "a" (Finite 0) (Finite ((2 ^ 53 - 1) # 2 ^ 53)) None in
  let b := mkFragment "b" (Finite 1) (Finite 6) None in
  extract_loop ["a"; "b"]
    ["q[0,0,0.99999999999999988897769753748434595763683319091796875]";
     "q[1,1,6]"] None [] w0
  = (w0, Return [a; b])
  /\ 6 - ((2 ^ 53 - 1) # 2 ^ 53) == 5 + (1 # 2 ^ 53)
  /\ fabs (fsub (y b) (y a)) = Number 5
  /\ _group_data_into_rows demo_parser [a; b] = [[a; b]].
Proof. vm_compute. repeat split. Qed.

(** C2, as the code has it.  The rows returned for [sorted_data] are,
    each put in the order of x, the consecutive non-empty pieces
    [unsorted_rows] of it such that a fragment [b] with predecessor [a]
    begins a piece exactly when [abs(b.y - a.y)], as the floats give it,
    is strictly above the tolerance: the difference is taken to the
    fragment just before, wherever the row began, and it is the rounded
    one.  So a computed distance equal to the tolerance keeps the two in
    one row, as does the nan of two infinite y; a computed distance above
    the tolerance by any positive amount separates them, as does an
    infinite one; and the last fragment is in the last row returned. *)
Theorem row_grouping_rule (self : TencentSheetParser)
    (sorted_data : list fragment) :
  exists unsorted_rows,
    _group_data_into_rows self sorted_data = map sort_row unsorted_rows
    /\ Forall2 (fun row piece => Permutation row piece)
               (_group_data_into_rows self sorted_data) unsorted_rows
    /\ Forall (StronglySorted (fun f g => (x f <= x g)%C))
              (_group_data_into_rows self sorted_data)
    /\ List.concat unsorted_rows = sorted_data
    /\ Forall (fun r => r <> []) unsorted_rows
    /\ (forall pre a b post,
          sorted_data = pre ++ a :: b :: post ->
          (gt (fabs (fsub (y b) (y a))) (y_tolerance self) = true
           <-> starts_row unsorted_rows pre a b)
          /\ (gt (fabs (fsub (y b) (y a))) (y_tolerance self) = false ->
              same_row unsorted_rows pre a b)
          /\ (forall d, fabs (fsub (y b) (y a)) = Number d ->
                d == y_tolerance self ->
                same_row unsorted_rows pre a b)
          /\ (fabs (fsub (y b) (y a)) = Nan ->
              same_row unsorted_rows pre a b)
          /\ (forall d eps, fabs (fsub (y b) (y a)) = Number d ->
                0 < eps -> d == y_tolerance self + eps ->
                starts_row unsorted_rows pre a b)
          /\ (fabs (fsub (y b) (y a)) = PlusInf ->
              starts_row unsorted_rows pre a b))
    /\ (forall init z,
          sorted_data = init ++ [z] ->
          exists rows1 r, unsorted_rows = rows1 ++ [r ++ [z]]).
Proof.
  destruct sorted_data as [|first rest].
  - exists []. split; [reflexivity|]. split; [constructor|].
    split; [constructor|].
    split; [reflexivity|]. split; [constructor|]. split.
    + intros pre a b post H. destruct pre; discriminate.
    + intros init z H. destruct init; discriminate.
  - exists (open_rows (y_tolerance self) rest [first] (y first)).
    assert (Hrows : _group_data_into_rows self (first :: rest)
                    = map sort_row
                        (open_rows (y_tolerance self) rest [first] (y first)))
      by apply (group_loop_open_rows _ rest [] [first] (y first)).
    split; [exact Hrows|].
    split; [rewrite Hrows; apply sort_rows_perm|].
    split; [rewrite Hrows; apply Forall_map, Forall_forall;
            intros r _; apply sort_row_sorted|].
    split; [apply open_rows_concat|].
    split; [apply open_rows_nonempty; discriminate|].
    split.
    + intros pre a b post H.
      assert (Hiff : gt (fabs (fsub (y b) (y a))) (y_tolerance self) = true
                     <-> starts_row
                           (open_rows (y_tolerance self) rest [first] (y first))
                           pre a b).
      { apply (open_rows_starts_row _ rest [] first pre a b post);
          [exact H|cbn; lia]. }
      assert (Hnear : gt (fabs (fsub (y b) (y a))) (y_tolerance self) = false ->
                      same_row
                        (open_rows (y_tolerance self) rest [first] (y first))
                        pre a b).
      { intros Hle.
        apply (open_rows_same_row _ rest [] first pre a b post);
          [exact H|cbn; lia|exact Hle]. }
      split; [exact Hiff|]. split; [exact Hnear|].
      split; [|split; [|split]].
      * intros d Hd Heq. apply Hnear. rewrite Hd. cbn [gt].
        apply Qltb_ge. rewrite Heq. apply Qle_refl.
      * intros Hd. apply Hnear. rewrite Hd. reflexivity.
      * intros d eps Hd Heps Heq. apply Hiff. rewrite Hd. cbn [gt].
        apply Qltb_lt. rewrite Heq. lra.
      * intros Hd. apply Hiff. rewrite Hd. reflexivity.
    + intros init z H.
      apply (open_rows_last _ rest [first] (y first) init z H).
Qed.

(** C2 on three fragments with tolerance 5: y = 0, 5, 10.5. *)
Lemma row_grouping_rule_witness :
  exists unsorted_rows,
    _group_data_into_rows demo_parser
      [mkFragment "a" (Finite 3) (Finite 0) None;
       mkFragment "b" (Finite 1) (Finite 5) None;
       mkFragment "c" (Finite 0) (Finite (21 # 2)) None]
    = map sort_row unsorted_rows
    /\ Forall2 (fun row piece => Permutation row piece)
         [[mkFragment "b" (Finite 1) (Finite 5) None;
           mkFragment "a" (Finite 3) (Finite 0) None];
          [mkFragment "c" (Finite 0) (Finite (21 # 2)) None]]
         unsorted_rows
    /\ same_row unsorted_rows [] (mkFragment "a" (Finite 3) (Finite 0) None)
                (mkFragment "b" (Finite 1) (Finite 5) None)
    /\ starts_row unsorted_rows [mkFragment "a" (Finite 3) (Finite 0) None]
                  (mkFragment "b" (Finite 1) (Finite 5) None)
                  (mkFragment "c" (Finite 0) (Finite (21 # 2)) None).
Proof.
  destruct (row_grouping_rule demo_parser
              [mkFragment "a" (Finite 3) (Finite 0) None;
               mkFragment "b" (Finite 1) (Finite 5) None;
               mkFragment "c" (Finite 0) (Finite (21 # 2)) None])
    as (unsorted_rows & Hrows & Hperm & _ & _ & _ & Hpair & _).
  exists unsorted_rows. split; [exact Hrows|]. split; [exact Hperm|]. split.
  - apply (proj1 (proj2 (proj2
             (Hpair [] _ _ [mkFragment "c" (Finite 0) (Finite (21 # 2)) None]
                    eq_refl))) 5).
    + vm_compute. reflexivity.
    + reflexivity.
  - apply (proj1 (proj2 (proj2 (proj2 (proj2
             (Hpair [mkFragment "a" (Finite 3) (Finite 0) None] _ _ []
                    eq_refl))))) (11 # 2) (1 # 2)).
    + vm_compute. reflexivity.
    + reflexivity.
    + reflexivity.
Defined.

(** C6.  For every list of fragments, the rows that come out of the sort
    by (y, x) followed by [_group_data_into_rows] hold the same fragments,
    none of the rows is empty, the fragments of each row are in
    non-decreasing x order, and the least y of a row is never above the
    least y of a row after it. *)
Theorem row_ordering (self : TencentSheetParser) (main_data : list fragment) :
  let table_rows :=
    _group_data_into_rows self
      (sorted (fun item => (y item, x item)) tuple_ltb main_data) in
  Forall (StronglySorted (fun f g => (x f <= x g)%C)) table_rows
  /\ StronglySorted (fun r1 r2 => (min_y r1 <= min_y r2)%C) table_rows
  /\ Forall (fun r => (exists f, In f r /\ min_y r = y f)
                      /\ forall g, In g r -> (min_y r <= y g)%C) table_rows
  /\ Permutation (List.concat table_rows) main_data.
Proof.
  cbn zeta.
  set (sorted_data := sorted (fun item => (y item, x item)) tuple_ltb main_data).
  assert (Hrows : exists pieces,
             _group_data_into_rows self sorted_data = map sort_row pieces
             /\ List.concat pieces = sorted_data
             /\ Forall (fun r => r <> []) pieces).
  { destruct sorted_data as [|first rest].
    - exists []. repeat split. constructor.
    - exists (open_rows (y_tolerance self) rest [first] (y first)).
      split; [apply (group_loop_open_rows _ rest [] [first] (y first))|].
      split; [apply open_rows_concat|].
      apply open_rows_nonempty. discriminate. }
  destruct Hrows as (pieces & -> & Hconcat & Hne).
  assert (Hleast : Forall (fun r => (exists f, In f r /\ min_y r = y f)
                                    /\ forall g, In g r -> (min_y r <= y g)%C)
                          (map sort_row pieces)).
  { apply Forall_map. eapply Forall_impl; [|exact Hne]. cbn beta.
    intros r Hr. apply min_y_least. apply sort_row_nonempty. exact Hr. }
  split; [|split; [|split]].
  - apply Forall_map, Forall_forall. intros r _. apply sort_row_sorted.
  - assert (Hpieces : StronglySorted
                        (fun p q => forall a b, In a p -> In b q ->
                                                (y a <= y b)%C)
                        pieces).
    { apply StronglySorted_concat. rewrite Hconcat.
      apply sorted_by_y_then_x. }
    clear Hconcat Hleast. induction Hpieces as [|p pieces Hs IH Hp];
      cbn [map]; constructor.
    + apply IH. apply Forall_inv_tail in Hne. exact Hne.
    + apply Forall_map. apply Forall_forall. intros q Hq.
      rewrite Forall_forall in Hp. specialize (Hp q Hq).
      assert (Hpne : sort_row p <> [])
        by (apply sort_row_nonempty; apply (Forall_inv Hne)).
      assert (Hqne : sort_row q <> []).
      { apply sort_row_nonempty. apply Forall_inv_tail in Hne.
        rewrite Forall_forall in Hne. apply Hne. exact Hq. }
      destruct (min_y_least _ Hpne) as [(f & Hf & _) Hlow].
      destruct (min_y_least _ Hqne) as [(g & Hg & ->) _].
      apply Cle_trans with (y f); [apply Hlow; exact Hf|].
      apply Hp.
      * apply (Permutation_in _ (sort_row_perm p)). exact Hf.
      * apply (Permutation_in _ (sort_row_perm q)). exact Hg.
  - exact Hleast.
  - apply perm_trans with (List.concat pieces);
      [apply concat_sort_row_perm|].
    rewrite Hconcat. apply sorted_perm.
Qed.


(** * Further properties of the code *)

(** ** The command stream: [split] *)

Lemma split_not_nil (sep : ascii) (s : string) : split sep s <> [].
Proof.
  destruct s as [|c s]; cbn [split]; [discriminate|].
  destruct (Ascii.eqb c sep); [discriminate|].
  destruct (split sep s); discriminate.
Qed.

Lemma concat_cons (sep x y : string) (ys : list string) :
  String.concat sep (x :: y :: ys)
  = (x ++ sep ++ String.concat sep (y :: ys))%string.
Proof. reflexivity. Qed.

Lemma split_spec (sep : ascii) (s : string) :
  String.concat (String sep EmptyString) (split sep s) = s
  /\ Forall (fun cmd => count_char sep cmd = 0%nat) (split sep s)
  /\ List.length (split sep s) = S (count_char sep s).
Proof.
  induction s as [|c s (IHjoin & IHsep & IHlen)].
  - cbn. repeat split. constructor; [reflexivity|constructor].
  - cbn [split count_char]. destruct (Ascii.eqb c sep) eqn:E.
    + apply Ascii.eqb_eq in E. subst c. split; [|split].
      * destruct (split sep s) as [|h t] eqn:Es.
        -- exfalso. exact (split_not_nil sep s Es).
        -- rewrite concat_cons, IHjoin. reflexivity.
      * constructor; [reflexivity|exact IHsep].
      * cbn [List.length]. rewrite IHlen. reflexivity.
    + destruct (split sep s) as [|h t] eqn:Es.
      * exfalso. exact (split_not_nil sep s Es).
      * split; [|split].
        -- destruct t as [|h' t].
           ++ cbn [String.concat] in *. now rewrite IHjoin.
           ++ rewrite concat_cons in *. rewrite <- IHjoin. reflexivity.
        -- apply Forall_cons_iff in IHsep. destruct IHsep as [Hh Ht].
           constructor; [|exact Ht]. cbn [count_char]. rewrite E. exact Hh.
        -- cbn [List.length] in *. exact IHlen.
Qed.

(** X1.  [split] loses nothing: joining the commands with the separator
    gives the action log back; no command contains the separator, there
    is one command more than there are separators, and a log without
    separator is one command. *)
Theorem split_join (sep : ascii) (s : string) :
  String.concat (String sep EmptyString) (split sep s) = s
  /\ Forall (fun cmd => count_char sep cmd = 0%nat) (split sep s)
  /\ List.length (split sep s) = S (count_char sep s)
  /\ (count_char sep s = 0%nat <-> split sep s = [s]).
Proof.
  destruct (split_spec sep s) as (Hjoin & Hsep & Hlen).
  split; [exact Hjoin|]. split; [exact Hsep|]. split; [exact Hlen|].
  split.
  - intros H. rewrite H in Hlen.
    destruct (split sep s) as [|piece [|other rest]]; try discriminate.
    cbn in Hjoin. now rewrite Hjoin.
  - intros H. rewrite H in Hlen. cbn in Hlen. lia.
Qed.

(** ** The placement pattern *)

Lemma str_app_assoc (a b c : string) :
  ((a ++ b) ++ c)%string = (a ++ b ++ c)%string.
Proof. induction a as [|d a IH]; cbn; [reflexivity|now rewrite IH]. Qed.

Lemma expect_some (c : ascii) (s rest : string) :
  expect c s = Some rest <-> s = String c rest.
Proof.
  unfold expect. destruct s as [|d s].
  - split; discriminate.
  - destruct (Ascii.eqb_spec d c) as [->|Hne].
    + split; intros H; injection H as ->; reflexivity.
    + split; [discriminate|]. intros H. injection H as -> _. contradiction.
Qed.


Lemma span_spec (p : ascii -> bool) (s : string) :
  forall h t,
    span p s = (h, t) ->
    s = (h ++ t)%string /\ all_in p h = true /\ stops p t.
Proof.
  induction s as [|c s IH]; intros h t H; cbn [span] in H.
  - injection H as <- <-. repeat split.
  - destruct (p c) eqn:E.
    + destruct (span p s) as [h' t'] eqn:Es. injection H as <- <-.
      destruct (IH h' t' eq_refl) as (-> & Hall & Hstop).
      cbn [append all_in]. rewrite E, Hall. repeat split. exact Hstop.
    + injection H as <- <-. cbn [append all_in stops]. repeat split. exact E.
Qed.

Lemma span_app (p : ascii -> bool) (g rest : string) :
  all_in p g = true -> stops p rest -> span p (g ++ rest) = (g, rest).
Proof.
  intros Hall Hstop. induction g as [|c g IH]; cbn [append].
  - destruct rest as [|d rest]; cbn [span]; [reflexivity|].
    cbn [stops] in Hstop. now rewrite Hstop.
  - cbn [all_in] in Hall. apply andb_true_iff in Hall. destruct Hall as [Hc Hg].
    cbn [span]. rewrite Hc, (IH Hg). reflexivity.
Qed.

Lemma plus_some (p : ascii -> bool) (s g rest : string) :
  plus p s = Some (g, rest)
  <-> g <> EmptyString /\ s = (g ++ rest)%string
      /\ all_in p g = true /\ stops p rest.
Proof.
  unfold plus. split.
  - destruct (span p s) as [h t] eqn:Es. apply span_spec in Es.
    destruct h as [|c h]; [discriminate|].
    intros H. injection H as <- <-. split; [discriminate|exact Es].
  - intros (Hne & -> & Hall & Hstop). rewrite (span_app p g rest Hall Hstop).
    destruct g; [contradiction|reflexivity].
Qed.

Lemma plus_app (p : ascii -> bool) (g rest : string) :
  g <> EmptyString -> all_in p g = true -> stops p rest ->
  plus p (g ++ rest) = Some (g, rest).
Proof. intros. apply plus_some. repeat split; assumption. Qed.

Lemma pattern_sound (cmd g1 g2 g3 : string) :
  _Q_COMMAND_PATTERN_match cmd = Some (g1, g2, g3) ->
  exists tail,
    cmd = ("q[" ++ g1 ++ "," ++ g2 ++ "," ++ g3 ++ "]" ++ tail)%string
    /\ g1 <> EmptyString /\ all_in is_digit g1 = true
    /\ g2 <> EmptyString /\ all_in is_digit_or_dot g2 = true
    /\ g3 <> EmptyString /\ all_in is_digit_or_dot g3 = true.
Proof.
  unfold _Q_COMMAND_PATTERN_match.
  destruct (expect "q" cmd) as [s1|] eqn:E1; cbn [obind]; [|discriminate].
  destruct (expect "[" s1) as [s2|] eqn:E2; cbn [obind]; [|discriminate].
  destruct (plus is_digit s2) as [[h1 s3]|] eqn:E3; cbn [obind];
    [|discriminate].
  destruct (expect "," s3) as [s4|] eqn:E4; cbn [obind]; [|discriminate].
  destruct (plus is_digit_or_dot s4) as [[h2 s5]|] eqn:E5; cbn [obind];
    [|discriminate].
  destruct (expect "," s5) as [s6|] eqn:E6; cbn [obind]; [|discriminate].
  destruct (plus is_digit_or_dot s6) as [[h3 s7]|] eqn:E7; cbn [obind];
    [|discriminate].
  destruct (expect "]" s7) as [s8|] eqn:E8; cbn [obind]; [|discriminate].
  intros H. injection H as <- <- <-.
  apply expect_some in E1, E2, E4, E6, E8.
  apply plus_some in E3, E5, E7.
  destruct E3 as (N1 & -> & A1 & _), E5 as (N2 & -> & A2 & _),
           E7 as (N3 & -> & A3 & _).
  exists s8. subst. repeat split; assumption.
Qed.

Lemma pattern_complete (g1 g2 g3 tail : string) :
  g1 <> EmptyString -> all_in is_digit g1 = true ->
  g2 <> EmptyString -> all_in is_digit_or_dot g2 = true ->
  g3 <> EmptyString -> all_in is_digit_or_dot g3 = true ->
  _Q_COMMAND_PATTERN_match
    ("q[" ++ g1 ++ "," ++ g2 ++ "," ++ g3 ++ "]" ++ tail)%string
  = Some (g1, g2, g3).
Proof.
  intros N1 A1 N2 A2 N3 A3. unfold _Q_COMMAND_PATTERN_match.
  cbn [append expect obind]. cbn.
  rewrite (plus_app is_digit g1) by (assumption || reflexivity).
  cbn [obind expect]. cbn.
  rewrite (plus_app is_digit_or_dot g2) by (assumption || reflexivity).
  cbn [obind expect]. cbn.
  rewrite (plus_app is_digit_or_dot g3) by (assumption || reflexivity).
  cbn [obind expect]. cbn. reflexivity.
Qed.

(** X2.  The pattern matches a command exactly when the command begins
    with "q[", a group of digits, a comma, two groups of digits and dots
    with a comma between them, and "]"; each group has one character at
    least, what follows the bracket is free, and the groups returned are
    those three. *)
Theorem placement_pattern (cmd g1 g2 g3 : string) :
  _Q_COMMAND_PATTERN_match cmd = Some (g1, g2, g3)
  <-> exists tail,
        cmd = ("q[" ++ g1 ++ "," ++ g2 ++ "," ++ g3 ++ "]" ++ tail)%string
        /\ g1 <> EmptyString /\ all_in is_digit g1 = true
        /\ g2 <> EmptyString /\ all_in is_digit_or_dot g2 = true
        /\ g3 <> EmptyString /\ all_in is_digit_or_dot g3 = true.
Proof.
  split.
  - apply pattern_sound.
  - intros (tail & -> & N1 & A1 & N2 & A2 & N3 & A3).
    apply pattern_complete; assumption.
Qed.

(** ** Coordinates that do not parse *)

Lemma float_none (g : string) :
  g <> EmptyString ->
  (float g = None <-> g = "." \/ (2 <= dots g)%nat).
Proof.
  intros Hne. unfold float, dots.
  destruct (split_spec "." g) as (Hjoin & Hsep & Hlen).
  destruct (split "." g) as [|i [|f [|extra rest]]].
  - discriminate.
  - cbn in Hjoin, Hlen. subst i.
    destruct (String.eqb_spec g ""); [contradiction|].
    split; [discriminate|]. intros [->|H]; [discriminate|lia].
  - cbn in Hjoin, Hlen. apply Forall_inv in Hsep.
    destruct (String.eqb_spec i "") as [->|Hi]; cbn [andb].
    + destruct (String.eqb_spec f "") as [->|Hf].
      * split; [intros _; left; now rewrite <- Hjoin|reflexivity].
      * split; [discriminate|]. intros [H|H]; [|lia].
        rewrite <- Hjoin in H. cbn in H. injection H as H. contradiction.
    + split; [discriminate|]. intros [H|H]; [|lia].
      rewrite <- Hjoin in H. destruct i as [|c i]; [contradiction|].
      cbn in H. injection H as -> H. cbn in Hsep. discriminate.
  - cbn [List.length] in Hlen. split; [intros _; right; lia|reflexivity].
Qed.

Lemma value_nonneg (m : positive) (e : Z) : 0 <= value m e.
Proof.
  unfold value. rewrite Qred_correct.
  destruct (0 <=? e)%Z; unfold Qle; cbn [Qnum Qden].
  - pose proof (Z.pow_nonneg 2 e). nia.
  - lia.
Qed.

Lemma nearest_nonneg (n : N) (d : positive) : (Finite 0 <= nearest n d)%C.
Proof.
  unfold nearest. destruct n as [|p]; [apply Qle_refl|].
  destruct (SFdiv 53 1024 (S754_finite false p 0) (S754_finite false d 0));
    cbn; trivial; try apply Qle_refl.
  apply value_nonneg.
Qed.

Lemma float_nonneg (g : string) (c : coordinate) :
  float g = Some c -> (Finite 0 <= c)%C.
Proof.
  unfold float.
  destruct (split "." g) as [|i [|f [|extra rest]]]; try discriminate.
  - destruct (i =? "")%string; [discriminate|].
    intros H. injection H as <-. apply nearest_nonneg.
  - destruct ((i =? "")%string && (f =? "")%string); [discriminate|].
    intros H. injection H as <-. apply nearest_nonneg.
Qed.

(** X3.  A placement command stops the whole transformation exactly when
    one of its two coordinates is a lone dot or has two dots or more:
    these are the groups of the pattern that [float] rejects. *)
Theorem fatal_commands (cmd g1 g2 g3 : string) :
  _Q_COMMAND_PATTERN_match cmd = Some (g1, g2, g3) ->
  (fatal cmd = true
   <-> (g2 = "." \/ (2 <= dots g2)%nat) \/ (g3 = "." \/ (2 <= dots g3)%nat)).
Proof.
  intros Hm. unfold fatal. rewrite Hm.
  apply pattern_sound in Hm.
  destruct Hm as (tail & _ & _ & _ & N2 & _ & N3 & _).
  rewrite <- (float_none g2 N2), <- (float_none g3 N3).
  destruct (float g2), (float g3); split; intros H;
    try reflexivity; try discriminate; intuition discriminate.
Qed.

Lemma fatal_commands_witness :
  fatal "q[0,1.2.3,4]" = true
  <-> ("1.2.3" = "." \/ (2 <= dots "1.2.3")%nat)
      \/ ("4" = "." \/ (2 <= dots "4")%nat).
Proof.
  apply (fatal_commands "q[0,1.2.3,4]" "0" "1.2.3" "4"). reflexivity.
Defined.

(** ** What the extraction loop produces *)

Lemma aborts_match (cmd : string) :
  aborts cmd
  = match _Q_COMMAND_PATTERN_match cmd with
    | Some (g1, g2, g3) =>
        match int g1, float g2, float g3 with
        | Some _, Some _, Some _ => false
        | _, _, _ => true
        end
    | None => false
    end.
Proof.
  unfold aborts, oversized, fatal, int.
  destruct (_Q_COMMAND_PATTERN_match cmd) as [[[g1 g2] g3]|]; [|reflexivity].
  destruct (String.length g1 <=? max_str_digits)%nat;
    destruct (float g2), (float g3); reflexivity.
Qed.

Lemma extract_loop_cases (texts_pool : list string)
    (commands : list string) :
  forall current_style_group extracted_data (w : world file),
    (existsb aborts commands = true ->
     exists w' msg,
       extract_loop texts_pool commands current_style_group extracted_data w
       = (w', Raise (ValueError msg))
       /\ files w' = files w)
    /\
    (existsb aborts commands = false ->
     exists w' new,
       extract_loop texts_pool commands current_style_group extracted_data w
       = (w', Return (extracted_data ++ new))
       /\ files w' = files w).
Proof.
  induction commands as [|cmd commands IH]; intros st data w.
  - split; [discriminate|]. intros _. exists w, []. now rewrite app_nil_r.
  - cbn [existsb extract_loop]. rewrite aborts_match.
    destruct (_Q_COMMAND_PATTERN_match cmd) as [[[g1 g2] g3]|];
      [|cbn [orb]; apply IH].
    destruct (int g1) as [text_index|];
      [|cbn [orb]; split; [intros _|discriminate];
        eexists w, _; split; reflexivity].
    destruct (float g2) as [xq|];
      [|cbn [orb]; split; [intros _|discriminate];
        eexists w, _; split; reflexivity].
    destruct (float g3) as [yq|];
      [|cbn [orb]; split; [intros _|discriminate];
        eexists w, _; split; reflexivity].
    cbn [orb].
    destruct (nth_error texts_pool (N.to_nat text_index)) as [t|].
    + set (st' := if startswith cmd "g" then Some cmd else st).
      destruct (IH st' (data ++ [mkFragment t xq yq st']) w) as [IHr IHo].
      split; [exact IHr|]. intros H.
      destruct (IHo H) as (w' & new & -> & Hf).
      exists w', (mkFragment t xq yq st' :: new).
      now rewrite <- app_assoc.
    + unfold bind, logger.
      set (st' := if startswith cmd "g" then Some cmd else st).
      set (w1 := mkWorld _ _).
      destruct (IH st' data w1) as [IHr IHo]. split.
      * intros H. destruct (IHr H) as (w' & msg & -> & Hf).
        exists w', msg. split; [reflexivity|exact Hf].
      * intros H. destruct (IHo H) as (w' & new & -> & Hf).
        exists w', new. split; [reflexivity|exact Hf].
Qed.

(** X4.  The extraction raises exactly when some command of the log is a
    placement command on which [int] or [float] raises: an index of more
    than 4300 digits, or a coordinate that does not parse -- whatever the
    pool holds.  What it raises is a [ValueError].  When it returns, the
    fragments it was given are the beginning of the result.  In both cases
    no file is touched. *)
Theorem extraction_raises_iff (texts_pool : list string)
    (commands : list string) (current_style_group : option string)
    (extracted_data : list fragment) (w : world file) :
  let run :=
    extract_loop texts_pool commands current_style_group extracted_data w in
  files (fst run) = files w
  /\ ((exists e, snd run = Raise e) <-> existsb aborts commands = true)
  /\ (forall e, snd run = Raise e -> exists msg, e = ValueError msg)
  /\ (forall result, snd run = Return result ->
        exists new, result = extracted_data ++ new)
  /\ (forall cmd, aborts cmd = true
        <-> exists g1 g2 g3,
              _Q_COMMAND_PATTERN_match cmd = Some (g1, g2, g3)
              /\ ((max_str_digits < String.length g1)%nat
                  \/ float g2 = None \/ float g3 = None)).
Proof.
  cbn zeta.
  destruct (extract_loop_cases texts_pool commands current_style_group
              extracted_data w) as [Hraise Hreturn].
  assert (Haborts : forall cmd, aborts cmd = true
            <-> exists g1 g2 g3,
                  _Q_COMMAND_PATTERN_match cmd = Some (g1, g2, g3)
                  /\ ((max_str_digits < String.length g1)%nat
                      \/ float g2 = None \/ float g3 = None)).
  { intros cmd. rewrite aborts_match. unfold int.
    destruct (_Q_COMMAND_PATTERN_match cmd) as [[[g1 g2] g3]|].
    - destruct (Nat.leb_spec (String.length g1) max_str_digits) as [Hl|Hl].
      + destruct (float g2) eqn:E2, (float g3) eqn:E3; split;
          try discriminate; try (intros _; exists g1, g2, g3;
            split; [reflexivity|tauto]); try reflexivity.
        intros (h1 & h2 & h3 & H & Hc). injection H as <- <- <-.
        rewrite E2, E3 in Hc. destruct Hc as [Hc|[Hc|Hc]];
          [lia|discriminate|discriminate].
      + split; [|reflexivity]. intros _. exists g1, g2, g3.
        split; [reflexivity|left; exact Hl].
    - split; [discriminate|]. intros (h1 & h2 & h3 & H & _). discriminate. }
  destruct (existsb aborts commands).
  - destruct (Hraise eq_refl) as (w' & msg & -> & Hf). cbn [fst snd].
    split; [exact Hf|]. split; [|split; [|split]].
    + split; [reflexivity|]. intros _. eexists. reflexivity.
    + intros e H. injection H as <-. exists msg. reflexivity.
    + intros result H. discriminate H.
    + exact Haborts.
  - destruct (Hreturn eq_refl) as (w' & new & -> & Hf). cbn [fst snd].
    split; [exact Hf|]. split; [|split; [|split]].
    + split; [intros [e H]; discriminate H|discriminate].
    + intros e H. discriminate H.
    + intros result H. injection H as <-. exists new. reflexivity.
    + exact Haborts.
Qed.

Lemma from_log_step (texts_pool : list string) (cmd : string)
    (commands : list string) (st : option string) (f : fragment) :
  from_log texts_pool commands
           (if startswith cmd "g" then Some cmd else st) f ->
  from_log texts_pool (cmd :: commands) st f.
Proof.
  intros (Ht & Hx & Hy & Hs). repeat split; try assumption.
  destruct Hs as [Hs|(c & Hc & Hg & Hs)].
  - destruct (startswith cmd "g") eqn:E.
    + right. exists cmd. repeat split; [left; reflexivity|exact E|exact Hs].
    + left. exact Hs.
  - right. exists c. repeat split; [right; exact Hc|exact Hg|exact Hs].
Qed.

Lemma extract_loop_accounting (texts_pool : list string)
    (commands : list string) :
  forall current_style_group extracted_data (w w' : world file) result,
    extract_loop texts_pool commands current_style_group extracted_data w
    = (w', Return result) ->
    exists new warnings,
      result = extracted_data ++ new
      /\ log w' = log w ++ warnings
      /\ files w' = files w
      /\ Forall (from_log texts_pool commands current_style_group) new
      /\ Forall (out_of_range texts_pool) warnings
      /\ (List.length new + List.length warnings
          = List.length (filter placement commands))%nat.
Proof.
  induction commands as [|cmd commands IH]; intros st data w w' result H;
    cbn [extract_loop] in H.
  - injection H as <- <-. exists [], [].
    rewrite !app_nil_r. repeat split; constructor.
  - cbn [filter]. unfold placement at 1.
    set (st' := if startswith cmd "g" then Some cmd else st) in *.
    destruct (_Q_COMMAND_PATTERN_match cmd) as [[[g1 g2] g3]|].
    + destruct (int g1) as [text_index|]; [|discriminate].
      destruct (float g2) as [xq|] eqn:Ex; [|discriminate].
      destruct (float g3) as [yq|] eqn:Ey; [|discriminate].
      destruct (nth_error texts_pool (N.to_nat text_index)) as [t|] eqn:En.
      * destruct (IH _ _ _ _ _ H)
          as (new & warnings & -> & Hlog & Hf & Hnew & Hwarn & Hcount).
        exists (mkFragment t xq yq st' :: new), warnings.
        rewrite <- app_assoc. repeat split; try assumption.
        -- constructor.
           ++ apply from_log_step. fold st'. repeat split; cbn.
              ** eapply nth_error_In. exact En.
              ** eapply float_nonneg. exact Ex.
              ** eapply float_nonneg. exact Ey.
              ** left. reflexivity.
           ++ eapply Forall_impl; [|exact Hnew].
              intros f. apply from_log_step.
        -- cbn [List.length]. lia.
      * unfold bind, logger in H.
        destruct (IH _ _ _ _ _ H)
          as (new & warnings & -> & Hlog & Hf & Hnew & Hwarn & Hcount).
        cbn [log files] in Hlog, Hf.
        exists new, ((WARNING, TextIndexOutOfRange text_index) :: warnings).
        repeat split; try assumption.
        -- rewrite Hlog, <- app_assoc. reflexivity.
        -- eapply Forall_impl; [|exact Hnew].
           intros f. apply from_log_step.
        -- constructor; [|exact Hwarn].
           exists text_index. split; [reflexivity|].
           apply nth_error_None. exact En.
        -- cbn [List.length]. lia.
    + destruct (IH _ _ _ _ _ H)
        as (new & warnings & -> & Hlog & Hf & Hnew & Hwarn & Hcount).
      exists new, warnings. repeat split; try assumption.
      eapply Forall_impl; [|exact Hnew]. intros f. apply from_log_step.
Qed.


(** X5.  When the extraction of an action log returns, every placement
    command of the log has given either one fragment or one out-of-range
    warning, and nothing else was logged or written.  The text of each
    fragment is an entry of the pool, its coordinates are not negative,
    and its style is [None] or a command of the log that begins with "g". *)
Theorem extraction_accounting (texts_pool : list string)
    (actions_string : string) (w w' : world file)
    (extracted_data : list fragment) :
  extract_loop texts_pool (split ";" actions_string) None [] w
  = (w', Return extracted_data) ->
  exists warnings,
    log w' = log w ++ warnings
    /\ files w' = files w
    /\ Forall (from_log texts_pool (split ";" actions_string) None)
              extracted_data
    /\ Forall (out_of_range texts_pool) warnings
    /\ (List.length extracted_data + List.length warnings
        = List.length (filter placement (split ";" actions_string)))%nat.
Proof.
  intros H. apply extract_loop_accounting in H.
  destruct H as (new & warnings & -> & Hlog & Hf & Hnew & Hwarn & Hcount).
  exists warnings. cbn [app]. repeat split; assumption.
Qed.

Lemma extraction_accounting_witness :
  exists warnings,
    log (logged w0 WARNING (TextIndexOutOfRange 7)) = log w0 ++ warnings
    /\ (1 + List.length warnings = 2)%nat.
Proof.
  destruct (extraction_accounting ["a"; "b"] "g1;q[1,2.5,3];q[7,1,1]" w0
              (logged w0 WARNING (TextIndexOutOfRange 7))
              [mkFragment "b" (Finite (5 # 2)) (Finite 3) (Some "g1")])
    as (warnings & H2 & _ & _ & _ & H3).
  { vm_compute. reflexivity. }
  exists warnings. split; [exact H2|exact H3].
Defined.

(** ** The header filter always takes something away *)

Lemma first_minimum_in (l : list fragment) (top : fragment) :
  first_minimum l top -> In top l.
Proof.
  intros (pre & post & -> & _). apply in_or_app. right. left. reflexivity.
Qed.

Lemma filter_shorter {A : Type} (p : A -> bool) (a : A) (l : list A) :
  In a l -> p a = false ->
  (List.length (filter p l) < List.length l)%nat.
Proof.
  induction l as [|b l IH]; intros Hin Hp; [contradiction|].
  cbn [filter List.length]. destruct Hin as [->|Hin].
  - rewrite Hp. pose proof (filter_length_le p l). lia.
  - specialize (IH Hin Hp). destruct (p b); cbn [List.length]; lia.
Qed.

Lemma kept_same_style (s : option string) (f : fragment) :
  kept s f = false <-> style f = s.
Proof.
  unfold kept. rewrite negb_false_iff. apply style_eqb_eq.
Qed.

(** X6.  On a list that is not empty the filter never returns everything:
    the topmost fragment itself is dropped, so the result is a strictly
    shorter part of the input.  The warning of line 154 is logged exactly
    when nothing is left, and no file is touched. *)
Theorem filter_drops_topmost (first : fragment) (rest : list fragment)
    (w : world file) :
  exists w' main_data,
    _filter_out_header_labels (first :: rest) w = (w', Return main_data)
    /\ files w' = files w
    /\ ~ In (top_most_element first rest) main_data
    /\ (List.length main_data < List.length (first :: rest))%nat
    /\ (forall f, In f main_data -> In f (first :: rest))
    /\ (In (WARNING, NothingLeftAfterFilter) (skipn (List.length (log w)) (log w'))
        <-> main_data = []).
Proof.
  set (top := top_most_element first rest).
  set (main := filter (kept (style top)) (first :: rest)).
  assert (Htop : In top (first :: rest))
    by (apply first_minimum_in, top_most_element_first_minimum).
  assert (Hrun : exists w',
             _filter_out_header_labels (first :: rest) w = (w', Return main)
             /\ files w' = files w
             /\ (In (WARNING, NothingLeftAfterFilter)
                    (skipn (List.length (log w)) (log w'))
                 <-> main = [])).
  { unfold _filter_out_header_labels. fold top. fold (kept (style top)).
    fold main. unfold bind, logger, ret. cbn [log files].
    destruct main as [|f main'].
    - eexists. split; [reflexivity|]. split; [reflexivity|]. cbn [log].
      rewrite <- !app_assoc, skipn_app, skipn_all, Nat.sub_diag.
      cbn. intuition.
    - eexists. split; [reflexivity|]. split; [reflexivity|]. cbn [log].
      rewrite <- !app_assoc, skipn_app, skipn_all, Nat.sub_diag.
      cbn. split; [|discriminate].
      intros [H|[H|[]]]; discriminate. }
  destruct Hrun as (w' & Hrun & Hfiles & Hwarn).
  exists w', main. split; [exact Hrun|]. split; [exact Hfiles|].
  split; [|split; [|split]].
  - unfold main. rewrite filter_In. intros [_ H].
    assert (E : kept (style top) top = false) by (now apply kept_same_style).
    congruence.
  - apply (filter_shorter _ top); [exact Htop|now apply kept_same_style].
  - intros f Hf. unfold main in Hf. apply filter_In in Hf. apply Hf.
  - exact Hwarn.
Qed.

(** ** The whole transformation *)

Lemma group_pieces (self : TencentSheetParser) (sorted_data : list fragment) :
  exists pieces,
    _group_data_into_rows self sorted_data = map sort_row pieces
    /\ List.concat pieces = sorted_data
    /\ Forall (fun r => r <> []) pieces.
Proof.
  destruct sorted_data as [|first rest].
  - exists []. repeat split. constructor.
  - exists (open_rows (y_tolerance self) rest [first] (y first)).
    split; [apply (group_loop_open_rows _ rest [] [first] (y first))|].
    split; [apply open_rows_concat|].
    apply open_rows_nonempty. discriminate.
Qed.

Lemma group_In (self : TencentSheetParser) (sorted_data : list fragment)
    (row : list fragment) (f : fragment) :
  In row (_group_data_into_rows self sorted_data) -> In f row ->
  In f sorted_data.
Proof.
  destruct (group_pieces self sorted_data) as (pieces & -> & <- & _).
  intros Hrow Hf. apply in_map_iff in Hrow. destruct Hrow as (p & <- & Hp).
  apply in_concat. exists p. split; [exact Hp|].
  apply (Permutation_in _ (sort_row_perm p)). exact Hf.
Qed.

Lemma group_nil (self : TencentSheetParser) (sorted_data : list fragment) :
  _group_data_into_rows self sorted_data = [] <-> sorted_data = [].
Proof.
  destruct sorted_data as [|first rest]; [split; reflexivity|].
  split; [|discriminate]. unfold _group_data_into_rows.
  rewrite group_loop_open_rows. cbn [app].
  destruct (open_rows_head (y_tolerance self) rest [first] (y first))
    as (r & rows' & ->).
  discriminate.
Qed.

(** The text rows that [reconstruct] hands to [materialize]. *)
Lemma reconstruct_run (self : TencentSheetParser) (first : fragment)
    (rest : list fragment) (w : world file) :
  let main_data :=
    filter (kept (style (top_most_element first rest))) (first :: rest) in
  let text_rows :=
    map (map text)
        (_group_data_into_rows self
           (sorted (fun item => (y item, x item)) tuple_ltb main_data)) in
  exists w1,
    files w1 = files w
    /\ reconstruct self (first :: rest) w = materialize text_rows w1.
Proof.
  cbn zeta. unfold reconstruct, bind.
  destruct (filter_out_header_labels_run first rest w) as (w1 & -> & Hf).
  exists w1. split; [exact Hf|reflexivity].
Qed.

Lemma materialize_run (text_rows : list (list string)) (w : world file) :
  (exists w', files w' = files w
              /\ materialize text_rows w = (w', Return empty_frame)
              /\ (text_rows = [] \/ exists data, text_rows = [] :: data))
  \/ (exists headers data,
        headers <> [] /\ text_rows = headers :: data
        /\ materialize text_rows w
           = (w, Return (mkDataFrame headers
                           (map (pad_row (List.length headers)) data)))).
Proof.
  destruct text_rows as [|[|h headers] data].
  - left. eexists. split; [|split; [reflexivity|left; reflexivity]].
    reflexivity.
  - left. eexists. split; [|split; [reflexivity|right; now exists data]].
    reflexivity.
  - right. exists (h :: headers), data.
    split; [discriminate|]. split; reflexivity.
Qed.

Lemma filter_one_style (first : fragment) (rest : list fragment)
    (s : option string) :
  (forall f, In f (first :: rest) -> style f = s) ->
  filter (kept (style (top_most_element first rest))) (first :: rest) = [].
Proof.
  intros Hone.
  assert (Htop : style (top_most_element first rest) = s).
  { apply Hone. apply first_minimum_in, top_most_element_first_minimum. }
  rewrite Htop.
  destruct (filter (kept s) (first :: rest)) as [|f l] eqn:E; [reflexivity|].
  assert (Hin : In f (filter (kept s) (first :: rest)))
    by (rewrite E; left; reflexivity).
  apply filter_In in Hin. destruct Hin as [Hin Hk].
  assert (kept s f = false) by (apply kept_same_style, Hone, Hin).
  congruence.
Qed.

(** X7.  When all the fragments carry one style, the style of the topmost
    one is that style and the filter leaves nothing: the result is the
    empty frame, whatever the coordinates and the tolerance are. *)
Theorem one_style_gives_empty_frame (self : TencentSheetParser)
    (extracted_data : list fragment) (s : option string) (w : world file) :
  (forall f, In f extracted_data -> style f = s) ->
  exists w',
    reconstruct self extracted_data w = (w', Return empty_frame)
    /\ files w' = files w.
Proof.
  intros Hone. destruct extracted_data as [|first rest].
  - eexists. split; reflexivity.
  - destruct (reconstruct_run self first rest w) as (w1 & Hf & ->).
    rewrite (filter_one_style first rest s Hone).
    eexists. split; [reflexivity|]. cbn. exact Hf.
Qed.

Lemma one_style_gives_empty_frame_witness :
  exists w',
    reconstruct demo_parser
      [mkFragment "a" (Finite 0) (Finite 0) None;
       mkFragment "b" (Finite 10) (Finite 0) None;
       mkFragment "c" (Finite 0) Inf None] w0
    = (w', Return empty_frame)
    /\ files w' = files w0.
Proof.
  apply (one_style_gives_empty_frame demo_parser _ None w0).
  intros f [<-|[<-|[<-|[]]]]; reflexivity.
Defined.

Lemma no_style_group_styles (texts_pool : list string)
    (commands : list string) (l : list fragment) :
  Forall (fun cmd => startswith cmd "g" = false) commands ->
  Forall (from_log texts_pool commands None) l ->
  forall f, In f l -> style f = None.
Proof.
  intros Hno Hl f Hf. rewrite Forall_forall in Hno, Hl.
  destruct (Hl f Hf) as (_ & _ & _ & [H|(cmd & Hc & Hg & _)]).
  - exact H.
  - rewrite (Hno cmd Hc) in Hg. discriminate Hg.
Qed.

(** X8.  An action log without a command that begins with "g" never gives
    a table: all its fragments have the style [None], the topmost one
    too, so the filter drops them all and the frame is empty (unless
    [int] or [float] has raised first). *)
Theorem no_style_group_gives_empty_frame (self : TencentSheetParser)
    (texts_pool : list string) (actions_string : string) (w : world file) :
  Forall (fun cmd => startswith cmd "g" = false) (split ";" actions_string) ->
  exists w',
    files w' = files w
    /\ ((exists msg,
           _transform_record_to_dataframe self
             (mkRecord (Some (mkFlyweight (Some texts_pool)))
                       (Some actions_string)) w
           = (w', Raise (ValueError msg)))
        \/ _transform_record_to_dataframe self
             (mkRecord (Some (mkFlyweight (Some texts_pool)))
                       (Some actions_string)) w
           = (w', Return empty_frame)).
Proof.
  intros Hno. unfold _transform_record_to_dataframe.
  cbn [flyweight texts actions obind]. unfold bind.
  destruct (extract_loop_cases texts_pool (split ";" actions_string)
              None [] w) as [Hraise Hreturn].
  destruct (existsb aborts (split ";" actions_string)).
  - destruct (Hraise eq_refl) as (w1 & msg & -> & Hf).
    exists w1. split; [exact Hf|]. left. exists msg. reflexivity.
  - destruct (Hreturn eq_refl) as (w1 & new & Hrun & Hf). rewrite Hrun.
    apply extract_loop_accounting in Hrun.
    destruct Hrun as (new' & _ & Hnew & _ & _ & Hfrom & _).
    cbn [app] in Hnew |- *. subst new'.
    destruct new as [|first rest].
    + eexists. split; [|right; reflexivity]. cbn. exact Hf.
    + destruct (reconstruct_run self first rest w1) as (w2 & Hf2 & ->).
      rewrite (filter_one_style first rest None
                 (no_style_group_styles _ _ _ Hno Hfrom)).
      eexists. split; [|right; reflexivity]. cbn. congruence.
Qed.

Lemma no_style_group_gives_empty_frame_witness :
  exists w',
    files w' = files w0
    /\ ((exists msg,
           _transform_record_to_dataframe demo_parser
             (mkRecord (Some (mkFlyweight (Some ["a"; "b"])))
                       (Some "q[0,0,0];q[1,5,30]")) w0
           = (w', Raise (ValueError msg)))
        \/ _transform_record_to_dataframe demo_parser
             (mkRecord (Some (mkFlyweight (Some ["a"; "b"])))
                       (Some "q[0,0,0];q[1,5,30]")) w0
           = (w', Return empty_frame)).
Proof.
  apply (no_style_group_gives_empty_frame demo_parser ["a"; "b"]
           "q[0,0,0];q[1,5,30]" w0).
  repeat constructor.
Defined.

Lemma pad_row_cells (n : nat) (row : list string) (c : string) :
  In c (pad_row n row) -> In c row \/ c = "".
Proof.
  unfold pad_row. destruct (List.length row <? n)%nat; intros H.
  - apply in_app_or in H. destruct H as [H|H]; [left; exact H|].
    right. apply repeat_spec in H. exact H.
  - left. rewrite <- (firstn_skipn n row). apply in_or_app. left. exact H.
Qed.

Lemma text_rows_cells (self : TencentSheetParser) (texts_pool : list string)
    (p : fragment -> bool) (l : list fragment) :
  Forall (fun f => In (text f) texts_pool) l ->
  Forall (Forall (fun c => In c texts_pool))
    (map (map text)
         (_group_data_into_rows self
            (sorted (fun item => (y item, x item)) tuple_ltb (filter p l)))).
Proof.
  intros Hl. rewrite Forall_forall in Hl.
  apply Forall_forall. intros cells Hcells.
  apply in_map_iff in Hcells. destruct Hcells as (row & <- & Hrow).
  apply Forall_forall. intros c Hc.
  apply in_map_iff in Hc. destruct Hc as (f & <- & Hf).
  apply Hl. apply (group_In self _ row f Hrow) in Hf.
  apply (Permutation_in _ (sorted_perm _ _ _ _ _)) in Hf.
  apply filter_In in Hf. apply Hf.
Qed.

(** X9.  Every frame that [_transform_record_to_dataframe] returns is
    well formed: it is the empty frame or it has a column at least, each
    of its rows has as many cells as it has columns, each column label is
    an entry of the text pool and each cell is an entry of the pool or
    the empty string.  No file is touched on the way. *)
Theorem transform_frame_invariants (self : TencentSheetParser)
    (record : record_json) (w w' : world file) (d : DataFrame) :
  _transform_record_to_dataframe self record w = (w', Return d) ->
  files w' = files w
  /\ (d = empty_frame \/ columns d <> [])
  /\ Forall (fun row => List.length row = List.length (columns d)) (rows d)
  /\ forall texts_pool,
       obind (flyweight record) texts = Some texts_pool ->
       Forall (fun c => In c texts_pool) (columns d)
       /\ Forall (Forall (fun c => In c texts_pool \/ c = "")) (rows d).
Proof.
  unfold _transform_record_to_dataframe.
  assert (Hempty : forall w1 : world file,
             files w1 = files w ->
             files w1 = files w
             /\ (empty_frame = empty_frame \/ columns empty_frame <> [])
             /\ Forall (fun row => List.length row
                                   = List.length (columns empty_frame))
                       (rows empty_frame)
             /\ forall texts_pool,
                  obind (flyweight record) texts = Some texts_pool ->
                  Forall (fun c => In c texts_pool) (columns empty_frame)
                  /\ Forall (Forall (fun c => In c texts_pool \/ c = ""))
                            (rows empty_frame)).
  { intros w1 Hf. split; [exact Hf|]. split; [left; reflexivity|].
    split; [constructor|]. intros pool _. split; constructor. }
  destruct (obind (flyweight record) texts) as [texts_pool|].
  2:{ intros H. injection H as <- <-. apply Hempty. reflexivity. }
  destruct (actions record) as [actions_string|].
  2:{ intros H. injection H as <- <-. apply Hempty. reflexivity. }
  unfold bind.
  destruct (extract_loop texts_pool (split ";" actions_string) None [] w)
    as [w1 [l|e]] eqn:Hrun; [|discriminate].
  apply extract_loop_accounting in Hrun.
  destruct Hrun as (new & _ & Hl & _ & Hf1 & Hfrom & _).
  cbn [app] in Hl. subst new.
  assert (Hpool : Forall (fun f => In (text f) texts_pool) l).
  { eapply Forall_impl; [|exact Hfrom]. intros f Hfl. apply Hfl. }
  destruct l as [|first rest].
  - intros H. injection H as <- <-. apply Hempty. exact Hf1.
  - destruct (reconstruct_run self first rest w1) as (w2 & Hf2 & ->).
    pose proof (text_rows_cells self texts_pool
                  (kept (style (top_most_element first rest)))
                  (first :: rest) Hpool) as Hcells.
    destruct (materialize_run
                (map (map text)
                   (_group_data_into_rows self
                      (sorted (fun item => (y item, x item)) tuple_ltb
                         (filter (kept (style (top_most_element first rest)))
                                 (first :: rest))))) w2)
      as [(w3 & Hf3 & -> & _)|(headers & data & Hne & Hrows & ->)].
    + intros H. injection H as <- <-. apply Hempty. congruence.
    + intros H. injection H as <- <-. rewrite Hrows in Hcells.
      apply Forall_cons_iff in Hcells. destruct Hcells as [Hh Hd].
      cbn [columns rows]. split; [congruence|]. split; [right; exact Hne|].
      split.
      * apply Forall_map, Forall_forall. intros row _. apply pad_row_length.
      * intros pool Hp. injection Hp as <-. split; [exact Hh|].
        apply Forall_map. eapply Forall_impl; [|exact Hd]. cbn beta.
        intros row Hrow. apply Forall_forall. intros c Hc.
        apply pad_row_cells in Hc. destruct Hc as [Hc| ->]; [|right; reflexivity].
        left. rewrite Forall_forall in Hrow. apply Hrow. exact Hc.
Qed.

Lemma transform_frame_invariants_witness :
  files (logged (logged w0 INFO (TopMostElement "A"))
                INFO (StyleExcluded (Some "g1"))) = files w0
  /\ (mkDataFrame ["B"; "C"] [] = empty_frame
      \/ columns (mkDataFrame ["B"; "C"] []) <> []).
Proof.
  destruct (transform_frame_invariants demo_parser
              (demo_record ["A"; "B"; "C"]
                 "g1;q[0,0,0];g2;q[1,0,10];q[2,20,10]")
              w0
              (logged (logged w0 INFO (TopMostElement "A"))
                      INFO (StyleExcluded (Some "g1")))
              (mkDataFrame ["B"; "C"] []))
    as (H1 & H2 & _).
  - vm_compute. reflexivity.
  - split; [exact H1|exact H2].
Defined.

(** ** How many rows *)

Lemma open_rows_length (tol : Q) (items : list fragment) :
  forall current lastf,
    List.length (open_rows tol items current (y lastf))
    = S (breaks tol (lastf :: items)).
Proof.
  induction items as [|item items IH]; intros current lastf.
  - reflexivity.
  - cbn [open_rows breaks]. unfold far.
    destruct (gt (fabs (fsub (y item) (y lastf))) tol).
    + cbn [List.length]. rewrite IH. reflexivity.
    + rewrite IH. reflexivity.
Qed.

Lemma far_antitone (tol tol' : Q) (a b : fragment) :
  tol <= tol' -> far tol' a b = true -> far tol a b = true.
Proof.
  intros Hle. unfold far.
  destruct (fabs (fsub (y b) (y a))) as [d| | |]; cbn [gt]; trivial.
  rewrite !Qltb_lt. intros H. eapply Qle_lt_trans; eassumption.
Qed.

Lemma breaks_antitone (tol tol' : Q) (l : list fragment) :
  tol <= tol' -> (breaks tol' l <= breaks tol l)%nat.
Proof.
  intros Hle. induction l as [|a [|b l] IH]; [apply Nat.le_refl ..|].
  cbn [breaks] in *. pose proof (far_antitone tol tol' a b Hle) as H.
  destruct (far tol' a b).
  - rewrite (H eq_refl). lia.
  - destruct (far tol a b); lia.
Qed.

Lemma group_length (self : TencentSheetParser) (first : fragment)
    (rest : list fragment) :
  List.length (_group_data_into_rows self (first :: rest))
  = S (breaks (y_tolerance self) (first :: rest)).
Proof.
  unfold _group_data_into_rows. rewrite group_loop_open_rows. cbn [app].
  rewrite length_map. apply open_rows_length.
Qed.

(** X10.  The number of rows is one more than the number of neighbours in
    the sorted input that the test of line 168 separates ([abs(b.y - a.y)]
    as the floats give it, strictly above the tolerance); the rows hold
    as many fragments as the input; and a larger tolerance never gives
    more rows. *)
Theorem row_count (self : TencentSheetParser) (sorted_data : list fragment) :
  List.length (_group_data_into_rows self sorted_data)
  = match sorted_data with
    | [] => 0%nat
    | _ :: _ => S (breaks (y_tolerance self) sorted_data)
    end
  /\ List.length (List.concat (_group_data_into_rows self sorted_data))
     = List.length sorted_data
  /\ forall self',
       y_tolerance self <= y_tolerance self' ->
       (List.length (_group_data_into_rows self' sorted_data)
        <= List.length (_group_data_into_rows self sorted_data))%nat.
Proof.
  split; [|split].
  - destruct sorted_data as [|first rest]; [reflexivity|apply group_length].
  - destruct (group_pieces self sorted_data) as (pieces & -> & <- & _).
    apply Permutation_length, concat_sort_row_perm.
  - intros self' Hle. destruct sorted_data as [|first rest].
    + apply Nat.le_refl.
    + rewrite !group_length. apply le_n_S, breaks_antitone, Hle.
Qed.

(** ** [sorted] is stable *)

Section Stability.

Variables (A K : Type) (key : A -> K) (ltb : K -> K -> bool).

(** A class of items none of which is strictly below another. *)
Variable same : A -> bool.
Hypothesis same_unordered :
  forall a b, same a = true -> same b = true -> ltb (key a) (key b) = false.

Lemma insert_stable (item : A) (l : list A) :
  filter same (insert key ltb item l) = filter same (item :: l).
Proof.
  induction l as [|b l IH]; cbn [insert]; [reflexivity|].
  destruct (ltb (key b) (key item)) eqn:E; [|reflexivity].
  cbn [filter] in *. rewrite IH.
  destruct (same b) eqn:Eb; [|reflexivity].
  destruct (same item) eqn:Ei; [|reflexivity].
  rewrite (same_unordered b item Eb Ei) in E. discriminate E.
Qed.

Lemma sorted_stable (l : list A) :
  filter same (sorted key ltb l) = filter same l.
Proof.
  unfold sorted. induction l as [|a l IH]; cbn [fold_right]; [reflexivity|].
  rewrite insert_stable. cbn [filter]. rewrite IH. reflexivity.
Qed.

End Stability.

(** X11.  Both sorts keep the order of the input among fragments that
    compare equal: the fragments of a row with the same x stay in the
    order they had, and so do the fragments with the same (y, x) in the
    sort of line 119. *)
Theorem sorts_are_stable (l : list fragment) (kx ky : coordinate) :
  filter (fun f => Ceqb (x f) kx) (sort_row l)
  = filter (fun f => Ceqb (x f) kx) l
  /\ filter (fun f => Ceqb (y f) ky && Ceqb (x f) kx)
            (sorted (fun item => (y item, x item)) tuple_ltb l)
     = filter (fun f => Ceqb (y f) ky && Ceqb (x f) kx) l.
Proof.
  split.
  - apply sorted_stable. intros a b Ha Hb.
    apply Ceqb_eq in Ha, Hb. apply Cltb_ge.
    apply Cle_trans with kx; [apply Hb|apply Ha].
  - apply sorted_stable. intros a b Ha Hb.
    apply andb_true_iff in Ha, Hb.
    destruct Ha as [Hay Hax], Hb as [Hby Hbx].
    apply Ceqb_eq in Hay, Hax, Hby, Hbx.
    apply tuple_ltb_false. cbn [fst snd]. left. repeat split.
    + apply Cle_trans with ky; [apply Hby|apply Hay].
    + apply Cle_trans with ky; [apply Hay|apply Hby].
    + apply Cle_trans with kx; [apply Hbx|apply Hax].
Qed.

(** ** When an export writes *)

(** Splits a goal and its hypotheses into cases and closes the ones that
    equalities decide. *)
Ltac cases :=
  repeat (match goal with
          | |- _ /\ _ => split
          | |- _ <-> _ => split
          | |- forall _, _ => intro
          | H : _ /\ _ |- _ => destruct H
          | H : _ \/ _ |- _ => destruct H
          end);
  try discriminate; try congruence; try reflexivity; try contradiction;
  auto.

(** X12.  With a frame stored, [output_to] returns [True] exactly when
    the frame is not empty, the format is "csv" or "excel", spelled so,
    and the writer of pandas does not raise; it then has written that
    frame, as the kind asked for, under the given path and nothing else,
    and has logged it.  It raises exactly what the writer raises, with
    nothing logged.  In every other case it returns [False] and the files
    are what they were. *)
Theorem output_to_writes (refused : string -> file -> option exception)
    (self : TencentSheetParser) (d : DataFrame)
    (file_path output_format : string) (w : world file) :
  df self = Some d ->
  let run := output_to refused self file_path output_format w in
  let content :=
    if String.eqb output_format "csv" then CsvFile d else ExcelFile d in
  (snd run = Return true
   <-> empty d = false /\ (output_format = "csv" \/ output_format = "excel")
       /\ refused file_path content = None)
  /\ (forall e,
        snd run = Raise e
        <-> empty d = false /\ (output_format = "csv" \/ output_format = "excel")
            /\ refused file_path content = Some e)
  /\ (snd run = Return true ->
      files (fst run) = (file_path, content) :: files w
      /\ exists m, log (fst run) = log w ++ [(INFO, m)])
  /\ (forall e, snd run = Raise e -> log (fst run) = log w)
  /\ (snd run = Return false -> files (fst run) = files w).
Proof.
  intros Hdf. cbn zeta. unfold output_to, to_file. rewrite Hdf.
  destruct (empty d).
  - cbn. cases.
  - destruct (String.eqb_spec output_format "csv") as [->|Hcsv].
    + destruct (refused file_path (CsvFile d)) as [e|] eqn:E; cbn; cases.
      eexists; reflexivity.
    + destruct (String.eqb_spec output_format "excel") as [->|Hxls].
      * destruct (refused file_path (ExcelFile d)) as [e|] eqn:E; cbn; cases.
        eexists; reflexivity.
      * cbn. cases.
Qed.

(** An export that writes, and one that pandas refuses for the extension
    of its path. *)
Lemma output_to_writes_witness :
  let parser := mkParser (Some (mkDataFrame ["B"] [["1"]])) "" 5 in
  let no_engine path (_ : file) :=
    if String.eqb path "out.txt" then Some (ValueError "No engine for filetype")
    else None in
  (snd (output_to no_engine parser "out.csv" "csv" w0) = Return true
   /\ files (fst (output_to no_engine parser "out.csv" "csv" w0))
      = [("out.csv", CsvFile (mkDataFrame ["B"] [["1"]]))])
  /\ snd (output_to no_engine parser "out.txt" "excel" w0)
     = Raise (ValueError "No engine for filetype").
Proof.
  intros parser no_engine. split.
  - destruct (output_to_writes no_engine parser (mkDataFrame ["B"] [["1"]])
                "out.csv" "csv" w0 eq_refl) as (Htrue & _ & Hwritten & _).
    assert (H : snd (output_to no_engine parser "out.csv" "csv" w0)
                = Return true).
    { apply Htrue. repeat split. left. reflexivity. }
    split; [exact H|]. apply Hwritten. exact H.
  - destruct (output_to_writes no_engine parser (mkDataFrame ["B"] [["1"]])
                "out.txt" "excel" w0 eq_refl) as (_ & Hraise & _).
    apply Hraise. repeat split. right. reflexivity.
Defined.

(** ** Locating the record in the page *)

Lemma str_length_app (a b : string) :
  String.length (a ++ b) = (String.length a + String.length b)%nat.
Proof. induction a as [|c a IH]; cbn; [reflexivity|now rewrite IH]. Qed.

Lemma str_app_eq_le (a b c d : string) :
  (a ++ b)%string = (c ++ d)%string ->
  (String.length a <= String.length c)%nat ->
  exists l, c = (a ++ l)%string /\ b = (l ++ d)%string.
Proof.
  revert c. induction a as [|x a IH]; intros c H Hlen.
  - exists c. split; [reflexivity|exact H].
  - destruct c as [|z c]; [cbn in Hlen; lia|].
    cbn in H. injection H as -> H.
    destruct (IH c H) as (l & -> & ->); [cbn in Hlen; lia|].
    exists l. split; reflexivity.
Qed.

Lemma strip_prefix_some (p s rest : string) :
  strip_prefix p s = Some rest <-> s = (p ++ rest)%string.
Proof.
  revert s. induction p as [|c p IH]; intros s; cbn [strip_prefix append].
  - split; intros H; [injection H as ->; reflexivity|now rewrite H].
  - destruct s as [|d s]; [split; discriminate|].
    destruct (Ascii.eqb_spec c d) as [->|Hne].
    + rewrite IH. split; intros H; [now rewrite H|now injection H].
    + split; [discriminate|]. intros H. injection H as -> _. contradiction.
Qed.

(** [find] returns the first occurrence. *)
Lemma find_some (needle s before rest : string) :
  find needle s = Some (before, rest) ->
  s = (before ++ needle ++ rest)%string
  /\ forall before' rest',
       s = (before' ++ needle ++ rest')%string ->
       (String.length before <= String.length before')%nat.
Proof.
  revert before. induction s as [|c s IH]; intros before; cbn [find].
  - destruct (strip_prefix needle "") as [r|] eqn:E; [|discriminate].
    intros H. injection H as <- <-. apply strip_prefix_some in E.
    split; [exact E|]. intros. cbn. lia.
  - destruct (strip_prefix needle (String c s)) as [r|] eqn:E.
    + intros H. injection H as <- <-. apply strip_prefix_some in E.
      split; [exact E|]. intros. cbn. lia.
    + destruct (find needle s) as [[b r]|] eqn:Ef; [|discriminate].
      intros H. injection H as <- <-.
      destruct (IH b eq_refl) as (-> & Hmin). split; [reflexivity|].
      intros before' rest' H'. destruct before' as [|c' before'].
      * cbn [append] in H'. apply strip_prefix_some in H'.
        rewrite H' in E. discriminate E.
      * cbn [append] in H'. injection H' as _ H'.
        specialize (Hmin before' rest' H'). cbn. lia.
Qed.

Lemma find_none (needle s : string) :
  find needle s = None ->
  forall before rest, s <> (before ++ needle ++ rest)%string.
Proof.
  induction s as [|c s IH]; cbn [find].
  - destruct (strip_prefix needle "") as [r|] eqn:E; [discriminate|].
    intros _ before rest H. destruct before as [|c before]; [|discriminate].
    cbn [append] in H. apply strip_prefix_some in H. congruence.
  - destruct (strip_prefix needle (String c s)) as [r|] eqn:E; [discriminate|].
    destruct (find needle s) as [[b r]|] eqn:Ef; [discriminate|].
    intros _ before rest H. destruct before as [|c' before].
    + cbn [append] in H. apply strip_prefix_some in H. congruence.
    + cbn [append] in H. injection H as _ H. exact (IH eq_refl _ _ H).
Qed.

(** X13.  The search for the record returns the text between the first
    "const record=" of the page and the first ",replayRecord" behind it,
    and it returns nothing exactly when the page has no "const record="
    with a ",replayRecord" somewhere behind it. *)
Theorem record_search (html_content : string) :
  (forall group1,
     _RECORD_REGEX_search html_content = Some group1 ->
     exists before rest,
       html_content
       = (before ++ "const record=" ++ group1 ++ ",replayRecord" ++ rest)%string
       /\ (forall before' rest',
             html_content = (before' ++ "const record=" ++ rest')%string ->
             (String.length before <= String.length before')%nat)
       /\ (forall group1' rest',
             (group1 ++ ",replayRecord" ++ rest)%string
             = (group1' ++ ",replayRecord" ++ rest')%string ->
             (String.length group1 <= String.length group1')%nat))
  /\
  (_RECORD_REGEX_search html_content = None
   <-> forall before group1 rest,
         html_content
         <> (before ++ "const record=" ++ group1 ++ ",replayRecord" ++ rest)%string).
Proof.
  unfold _RECORD_REGEX_search.
  destruct (find "const record=" html_content) as [[before tail]|] eqn:E1.
  - apply find_some in E1. destruct E1 as [Hhtml Hfirst].
    destruct (find ",replayRecord" tail) as [[g rest]|] eqn:E2.
    + apply find_some in E2. destruct E2 as [Htail Hshort]. split.
      * intros group1 H. injection H as <-. exists before, rest.
        split; [now rewrite Hhtml, Htail|]. split; [exact Hfirst|].
        intros g' rest' H'. apply (Hshort g' rest'). now rewrite Htail.
      * split; [discriminate|]. intros H. exfalso.
        apply (H before g rest). now rewrite Hhtml, Htail.
    + split; [discriminate|]. split; [|reflexivity]. intros _.
      intros before' g' rest' H.
      assert (Hle : (String.length before <= String.length before')%nat)
        by (apply (Hfirst before' _ H)).
      rewrite Hhtml in H.
      rewrite <- (str_app_assoc before), <- (str_app_assoc before') in H.
      apply str_app_eq_le in H; [|rewrite !str_length_app; lia].
      destruct H as (l & _ & Htail).
      apply (find_none _ _ E2 (l ++ g')%string rest').
      rewrite Htail, str_app_assoc. reflexivity.
  - split; [discriminate|]. split; [|reflexivity]. intros _.
    intros before g rest H. apply (find_none _ _ E1 before _ H).
Qed.

(** ** The run around the core *)

Lemma transform_outcome (self : TencentSheetParser) (record : record_json)
    (w : world file) :
  exists w',
    files w' = files w
    /\ ((exists d,
           _transform_record_to_dataframe self record w = (w', Return d))
        \/ (exists msg,
              _transform_record_to_dataframe self record w
              = (w', Raise (ValueError msg)))).
Proof.
  unfold _transform_record_to_dataframe.
  destruct (obind (flyweight record) texts) as [texts_pool|].
  2:{ eexists. split; [|left; eexists; reflexivity]. reflexivity. }
  destruct (actions record) as [actions_string|].
  2:{ eexists. split; [|left; eexists; reflexivity]. reflexivity. }
  unfold bind.
  destruct (extract_loop_cases texts_pool (split ";" actions_string)
              None [] w) as [Hraise Hreturn].
  destruct (existsb aborts (split ";" actions_string)).
  - destruct (Hraise eq_refl) as (w1 & msg & -> & Hf).
    exists w1. split; [exact Hf|]. right. exists msg. reflexivity.
  - destruct (Hreturn eq_refl) as (w1 & new & -> & Hf). cbn [app].
    destruct new as [|first rest].
    + eexists. split; [|left; eexists; reflexivity]. cbn. exact Hf.
    + destruct (reconstruct_run self first rest w1) as (w2 & Hf2 & ->).
      match goal with
      | |- context [materialize ?rows w2] =>
          destruct (materialize_run rows w2)
            as [(w3 & Hf3 & -> & _)|(headers & data & _ & _ & ->)]
      end.
      * exists w3. split; [congruence|]. left. eexists. reflexivity.
      * exists w2. split; [congruence|]. left. eexists. reflexivity.
Qed.

Section Run.

Variable http_get : string -> response.
Variable decode : string -> option json_value.

Lemma get_dataframe_stops (self : TencentSheetParser) (s : state) :
  located_record http_get decode self = None ->
  exists s',
    get_dataframe http_get decode self s = (s', Return (self, empty_frame))
    /\ disk s' = disk s.
Proof.
  unfold located_record, get_dataframe, _fetch_page_content,
    _extract_record_json_string, _decode_to_dict, sbind, note_log, sret.
  cbn [trace disk].
  destruct (http_get (url self)) as [status_code text|].
  2:{ intros _. eexists. split; reflexivity. }
  destruct (raises_for_status status_code); cbn [orb].
  { intros _. eexists. split; reflexivity. }
  cbn [trace disk]. destruct (text =? "")%string.
  { intros _. eexists. split; reflexivity. }
  destruct (_RECORD_REGEX_search text) as [group1|].
  2:{ intros _. eexists. split; reflexivity. }
  cbn [trace disk]. destruct (group1 =? "")%string.
  { intros _. eexists. split; reflexivity. }
  destruct (decode group1) as [[|record|e]|]; try discriminate;
    intros _; eexists; split; reflexivity.
Qed.

Lemma get_dataframe_continues (self : TencentSheetParser)
    (record : record_json) (s : state) :
  located_record http_get decode self = Some (Object record) ->
  exists s',
    disk s' = disk s
    /\ ((exists d w',
           _transform_record_to_dataframe self record (mkWorld [] (disk s))
           = (w', Return d)
           /\ get_dataframe http_get decode self s
              = (s', Return (set_df self d, d)))
        \/ (exists msg w',
              _transform_record_to_dataframe self record (mkWorld [] (disk s))
              = (w', Raise (ValueError msg))
              /\ get_dataframe http_get decode self s
                 = (s', Raise (ValueError msg)))).
Proof.
  unfold located_record, get_dataframe, _fetch_page_content,
    _extract_record_json_string, _decode_to_dict, sbind, note_log, sret, lift.
  cbn [trace disk].
  destruct (http_get (url self)) as [status_code text|]; [|discriminate].
  destruct (raises_for_status status_code); cbn [orb]; [discriminate|].
  cbn [trace disk]. destruct (text =? "")%string; [discriminate|].
  destruct (_RECORD_REGEX_search text) as [group1|]; [|discriminate].
  cbn [trace disk]. destruct (group1 =? "")%string; [discriminate|].
  destruct (decode group1) as [[|r|e]|]; try discriminate.
  intros H. injection H as ->. cbn [trace disk].
  destruct (transform_outcome self record (mkWorld [] (disk s)))
    as (w' & Hf & [(d & Hrun)|(msg & Hrun)]); rewrite Hrun; cbn [files] in Hf.
  - eexists. split; [|left; exists d, w'; split; reflexivity].
    cbn [disk]. exact Hf.
  - eexists. split; [|right; exists msg, w'; split; reflexivity].
    cbn [disk]. exact Hf.
Qed.

Lemma get_dataframe_misshapen (self : TencentSheetParser) (k : shape_error)
    (s : state) :
  located_record http_get decode self = Some (Misshapen k) ->
  exists s',
    get_dataframe http_get decode self s = (s', Raise (shape_exception k))
    /\ disk s' = disk s.
Proof.
  unfold located_record, get_dataframe, _fetch_page_content,
    _extract_record_json_string, _decode_to_dict, sbind, note_log, sret,
    sraise.
  cbn [trace disk].
  destruct (http_get (url self)) as [status_code text|]; [|discriminate].
  destruct (raises_for_status status_code); cbn [orb]; [discriminate|].
  cbn [trace disk]. destruct (text =? "")%string; [discriminate|].
  destruct (_RECORD_REGEX_search text) as [group1|]; [|discriminate].
  cbn [trace disk]. destruct (group1 =? "")%string; [discriminate|].
  destruct (decode group1) as [[|r|k']|]; try discriminate.
  intros H. injection H as ->. eexists. split; reflexivity.
Qed.

End Run.


(** X15.  After a run that stopped early the parser exports what it held
    before, not what the run returned: a parser fresh from [__init__]
    raises [AttributeError] in [output_to], whatever the format and the
    writers are, and a parser that held a frame from an earlier run
    exports that older frame, although the run returned the empty frame:
    when the writer accepts it, it is that frame that is on the disk. *)
Theorem export_after_stopped_run (http_get : string -> response)
    (decode : string -> option json_value)
    (refused : string -> file -> option exception)
    (self : TencentSheetParser) (s : state) (file_path : string) :
  located_record http_get decode self = None ->
  exists s1,
    get_dataframe http_get decode self s = (s1, Return (self, empty_frame))
    /\ (df self = None ->
        forall output_format,
        exists msg,
          snd (lift (output_to refused self file_path output_format) s1)
          = Raise (AttributeError msg)
          /\ disk (fst (lift (output_to refused self file_path output_format)
                             s1))
             = disk s)
    /\ (forall earlier,
          df self = Some earlier -> empty earlier = false ->
          refused file_path (CsvFile earlier) = None ->
          snd (lift (output_to refused self file_path "csv") s1) = Return true
          /\ disk (fst (lift (output_to refused self file_path "csv") s1))
             = (file_path, CsvFile earlier) :: disk s).
Proof.
  intros E.
  destruct (get_dataframe_stops http_get decode self s E) as (s1 & Hrun & Hd).
  exists s1. split; [exact Hrun|]. split.
  - intros Hdf output_format. unfold lift, output_to. rewrite Hdf.
    cbn. eexists. split; [reflexivity|exact Hd].
  - intros earlier Hdf Hne Hok. unfold lift, output_to, to_file.
    rewrite Hdf, Hne. cbn. rewrite Hok.
    cbn. split; [reflexivity|]. now rewrite Hd.
Qed.

(** After a page that was not found: the fresh parser raises, the parser
    with an earlier frame writes it. *)
Lemma export_after_stopped_run_witness :
  let http_get := fun _ : string => Answer 404 "not found" in
  let decode := fun _ : string => @None json_value in
  let refused := fun (_ : string) (_ : file) => @None exception in
  let earlier := mkDataFrame ["B"] [["1"]] in
  (exists s1 msg,
     get_dataframe http_get decode (mkParser None target_url 5) s0
     = (s1, Return (mkParser None target_url 5, empty_frame))
     /\ snd (lift (output_to refused (mkParser None target_url 5)
                             "output.csv" "csv") s1)
        = Raise (AttributeError msg))
  /\
  (exists s1,
     get_dataframe http_get decode (mkParser (Some earlier) target_url 5) s0
     = (s1, Return (mkParser (Some earlier) target_url 5, empty_frame))
     /\ snd (lift (output_to refused (mkParser (Some earlier) target_url 5)
                             "output.csv" "csv") s1)
        = Return true
     /\ disk (fst (lift (output_to refused
                                   (mkParser (Some earlier) target_url 5)
                                   "output.csv" "csv") s1))
        = [("output.csv", CsvFile earlier)]).
Proof.
  intros http_get decode refused earlier. split.
  - destruct (export_after_stopped_run http_get decode refused
                (mkParser None target_url 5) s0 "output.csv" eq_refl)
      as (s1 & Hrun & Hfresh & _).
    destruct (Hfresh eq_refl "csv") as (msg & Hraise & _).
    exists s1, msg. split; [exact Hrun|exact Hraise].
  - destruct (export_after_stopped_run http_get decode refused
                (mkParser (Some earlier) target_url 5) s0 "output.csv"
                eq_refl)
      as (s1 & Hrun & _ & Hheld).
    destruct (Hheld earlier eq_refl eq_refl eq_refl) as (Htrue & Hdisk).
    exists s1. split; [exact Hrun|]. split; [exact Htrue|exact Hdisk].
Defined.

(** X16.  The script of the module.  When the fetch, the search of the
    record or the decoding stops the run, the first [output_to] raises
    [AttributeError] and the script ends there.  When the decoded value
    is misshapen or the core raises, the script ends with that exception.
    Otherwise the frame decides: with an empty frame the script ends
    normally and no file is written; with any other frame "output.csv"
    and then "output.xlsx" are written from it, the script ending with
    the exception of the first writer that raises. *)
Theorem main_outcomes (http_get : string -> response)
    (decode : string -> option json_value)
    (refused : string -> file -> option exception) (s : state) :
  let run := main http_get decode refused s in
  let parser := mkParser None target_url 5 in
  (located_record http_get decode parser = None ->
   exists msg,
     snd run = Raise (AttributeError msg) /\ disk (fst run) = disk s)
  /\
  (forall k,
     located_record http_get decode parser = Some (Misshapen k) ->
     snd run = Raise (shape_exception k) /\ disk (fst run) = disk s)
  /\
  (forall record,
     located_record http_get decode parser = Some (Object record) ->
     match snd (_transform_record_to_dataframe parser record
                  (mkWorld [] (disk s))) with
     | Raise e => snd run = Raise e /\ disk (fst run) = disk s
     | Return d =>
         if empty d then snd run = Return tt /\ disk (fst run) = disk s
         else
           match refused "output.csv" (CsvFile d),
                 refused "output.xlsx" (ExcelFile d) with
           | Some e, _ => snd run = Raise e
           | None, Some e =>
               snd run = Raise e
               /\ In ("output.csv", CsvFile d) (disk (fst run))
           | None, None =>
               snd run = Return tt
               /\ disk (fst run)
                  = ("output.xlsx", ExcelFile d)
                      :: ("output.csv", CsvFile d) :: disk s
           end
     end).
Proof.
  cbn zeta. set (parser := mkParser None target_url 5).
  set (s1 := mkState (trace s ++ []) (disk s)).
  assert (Hmain :
            main http_get decode refused s
            = sbind (get_dataframe http_get decode parser)
                (fun result =>
                   lift (output_to refused (fst result) "output.csv" "csv") ;;~
                   lift (output_to refused (fst result) "output.xlsx" "excel") ;;~
                   sret tt) s1)
    by reflexivity.
  rewrite Hmain. clear Hmain. unfold sbind. split; [|split].
  - intros E.
    destruct (get_dataframe_stops http_get decode parser s1 E)
      as (s2 & Hrun & Hd).
    rewrite Hrun. unfold lift, output_to. cbn.
    eexists. split; [reflexivity|exact Hd].
  - intros k E.
    destruct (get_dataframe_misshapen http_get decode parser k s1 E)
      as (s2 & Hrun & Hd).
    rewrite Hrun. cbn [fst snd]. split; [reflexivity|exact Hd].
  - intros record E.
    destruct (get_dataframe_continues http_get decode parser record s1 E)
      as (s2 & Hd & [(d & w' & Ht & Hrun)|(msg & w' & Ht & Hrun)]);
      cbn [disk s1] in Ht; rewrite Ht, Hrun; cbn [fst snd].
    + unfold lift, output_to, to_file, set_df. cbn [df].
      destruct (empty d).
      * cbn. split; [reflexivity|exact Hd].
      * cbn. destruct (refused "output.csv" (CsvFile d)) as [e1|];
          [reflexivity|].
        cbn. destruct (refused "output.xlsx" (ExcelFile d)) as [e2|].
        -- cbn. split; [reflexivity|]. left. reflexivity.
        -- cbn. split; [reflexivity|]. now rewrite Hd.
    + split; [reflexivity|exact Hd].
Qed.

(** A whole run of the script on a page that holds a record of four
    fragments: both files are written from the frame. *)
Lemma main_outcomes_witness :
  let http_get := fun _ : string =>
    Answer 200 "<script>const record={},replayRecord=1</script>" in
  let decode := fun _ : string =>
    Some (Object (demo_record ["A"; "B"; "C"; "D"]
                    "g1;q[0,0,0];g2;q[1,0,10];q[2,20,10];q[3,0,30]")) in
  let refused := fun (_ : string) (_ : file) => @None exception in
  let d := mkDataFrame ["B"; "C"] [["D"; ""]] in
  snd (main http_get decode refused s0) = Return tt
  /\ disk (fst (main http_get decode refused s0))
     = [("output.xlsx", ExcelFile d); ("output.csv", CsvFile d)].
Proof.
  intros http_get decode refused d.
  pose proof (proj2 (proj2 (main_outcomes http_get decode refused s0))
                (demo_record ["A"; "B"; "C"; "D"]
                   "g1;q[0,0,0];g2;q[1,0,10];q[2,20,10];q[3,0,30]")
                eq_refl) as H.
  vm_compute in H. exact H.
Defined.
